(** * The log forwarder [scripts/send_logs_from_file.py]

    A shallow embedding of the script and the properties its
    specification states about it.

    The script reads a text file, turns every line that is not blank into
    one OTLP log payload, posts each payload with its own blocking HTTP
    call, counts the outcomes and prints progress and a summary.

    Conventions of the embedding:
    - a Python [str] is a list of Unicode code points, a Python [int] is a
      [Z];
    - a Python [float] is the rational it denotes: clock readings and the
      rate are in [Q].  The product that gives the time stamp is rounded to
      binary64 as the code's is, since its digits are posted; for the
      elapsed time and the rate the rounding is left out (the sign of a
      difference and the test for zero are the same with and without it);
    - standard output is taken to accept every line: [print] does not
      raise;
    - the file system, the clock and [urlopen] are an environment the run
      consults; what is printed and what is posted is recorded in the
      state of the run;
    - a Python exception is a value of [exn]; a computation returns
      [inl e] when it raises [e]. *)

From Stdlib Require Import ZArith QArith String Ascii DecimalString DecimalPos DecimalZ.
From Stdlib Require Import Bool List Lia.
Import ListNotations.

Local Open Scope Z_scope.

(** ** Python strings and integers *)

Module Py.

(** A character is its Unicode code point. *)
Definition char := N.
Definition str := list char.

(** A string literal of the source (the literals of the script are ASCII). *)
Definition lit (s : string) : str :=
  map N_of_ascii (list_ascii_of_string s).

Definition str_eqb (a b : str) : bool :=
  if list_eq_dec N.eq_dec a b then true else false.

(** [str.isspace] on one character, the test [str.strip()] applies:
    the ASCII white space 0x09-0x0D, 0x1C-0x1F and 0x20, and the Unicode
    characters of bidirectional type WS, B or S or of category Zs. *)
Definition isspace (c : char) : bool :=
  (((9 <=? c) && (c <=? 13)) || ((28 <=? c) && (c <=? 32))
   || (c =? 133) || (c =? 160) || (c =? 5760)
   || ((8192 <=? c) && (c <=? 8202))
   || (c =? 8232) || (c =? 8233) || (c =? 8239) || (c =? 8287)
   || (c =? 12288))%N.

Fixpoint lstrip (s : str) : str :=
  match s with
  | [] => []
  | c :: r => if isspace c then lstrip r else s
  end.

Definition rstrip (s : str) : str := rev (lstrip (rev s)).

(** [s.strip()] *)
Definition strip (s : str) : str := rstrip (lstrip s).

(** Truth value of a string: not empty. *)
Definition truthy (s : str) : bool :=
  match s with [] => false | _ :: _ => true end.

(** [s.lower()] on the ASCII letters; the script lowers only the
    severity text, an ASCII literal. *)
Definition lower_char (c : char) : char :=
  if ((65 <=? c) && (c <=? 90))%N then (c + 32)%N else c.

Definition lower (s : str) : str := map lower_char s.

(** [str(n)] for an [int]. *)
Definition str_of_int (n : Z) : str :=
  lit (NilZero.string_of_int (Z.to_int n)).

(** The inverse of [lit] on the characters below 256, and the reading of
    a decimal text as an [int]. *)
Definition unlit (s : str) : string :=
  string_of_list_ascii (map ascii_of_N s).

Definition int_of_decimal (s : str) : option Z :=
  option_map Z.of_int (NilZero.int_of_string (unlit s)).

(** The integer nearest to [n / d], ties to even, for [n >= 0]. *)
Definition nearest_even (n : Z) (d : positive) : Z :=
  let q := n / Z.pos d in
  let r := n mod Z.pos d in
  match 2 * r ?= Z.pos d with
  | Lt => q
  | Gt => q + 1
  | Eq => if Z.even q then q else q + 1
  end.

(** The binary exponent of [n / d]: the [E] with [2^E <= n / d < 2^(E+1)]. *)
Definition floor_log2 (n d : positive) : Z :=
  let k := Z.log2 (Z.pos n) - Z.log2 (Z.pos d) in
  if 2 ^ Z.max 0 k * Z.pos d <=? 2 ^ Z.max 0 (- k) * Z.pos n
  then k else k - 1.

(** The binary64 float nearest to [n / d], ties to even: 53 significant
    bits, and steps of [2^-1074] below the normal range.  (Overflow to
    infinity, beyond [2^1024], is not modelled.) *)
Definition round_pos (n d : positive) : Q :=
  let e := Z.max (floor_log2 n d - 52) (-1074) in
  if 0 <=? e then
    inject_Z (nearest_even (Z.pos n) (d * Z.to_pos (2 ^ e)) * 2 ^ e)
  else
    nearest_even (Z.pos n * 2 ^ (- e)) d # Z.to_pos (2 ^ (- e)).

Definition round_double (x : Q) : Q :=
  match Qnum x with
  | Z0 => 0%Q
  | Z.pos n => round_pos n (Qden x)
  | Z.neg n => (- round_pos n (Qden x))%Q
  end.

(** [a * b] on floats: the exact product, rounded. *)
Definition float_mul (a b : Q) : Q := round_double (a * b).

(** [int(x)] for a [float]: truncation towards zero. *)
Definition int_of_float (x : Q) : Z := Z.quot (Qnum x) (Z.pos (Qden x)).

(** [len(l)] *)
Definition len {A} (l : list A) : Z := Z.of_nat (length l).

(** The bound of a slice: a negative index counts from the end, and the
    result is clamped to [0 .. len]. *)
Definition clamp (n : Z) (i : Z) : Z :=
  let j := if i <? 0 then i + n else i in
  Z.max 0 (Z.min n j).

(** [l[lo:hi]] *)
Definition slice {A} (l : list A) (lo hi : Z) : list A :=
  let a := clamp (len l) lo in
  let b := clamp (len l) hi in
  firstn (Z.to_nat (b - a)) (skipn (Z.to_nat a) l).

(** [l[:n]] for a literal [n >= 0]. *)
Definition prefix {A} (n : nat) (l : list A) : list A := firstn n l.

(** The number of elements of [range(start, stop, step)], [step <> 0]. *)
Definition range_len (start stop step : Z) : Z :=
  if 0 <? step then
    if start <? stop then (stop - start - 1) / step + 1 else 0
  else
    if stop <? start then (start - stop - 1) / (- step) + 1 else 0.

(** [range(start, stop, step)] as the list of its elements; [None] when
    [step] is 0, where Python raises [ValueError]. *)
Definition range (start stop step : Z) : option (list Z) :=
  if step =? 0 then None
  else Some (map (fun k => start + Z.of_nat k * step)
                 (seq 0 (Z.to_nat (range_len start stop step)))).

(** [a % b] is the floor remainder, the sign of the divisor: [Z.modulo]. *)
Definition mod_ (a b : Z) : Z := a mod b.

End Py.

Import Py.

(** ** Exceptions *)

Inductive exc_class :=
| Exception
| OSError
| FileNotFoundError
| TimeoutError
| ValueError
| UnicodeDecodeError
| ZeroDivisionError
| URLError          (* urllib.error *)
| HTTPError         (* urllib.error *)
| HTTPException     (* http.client *)
| BadStatusLine.    (* http.client *)

Definition exc_class_eqb (a b : exc_class) : bool :=
  match a, b with
  | Exception, Exception | OSError, OSError
  | FileNotFoundError, FileNotFoundError | TimeoutError, TimeoutError
  | ValueError, ValueError | UnicodeDecodeError, UnicodeDecodeError
  | ZeroDivisionError, ZeroDivisionError
  | URLError, URLError | HTTPError, HTTPError
  | HTTPException, HTTPException | BadStatusLine, BadStatusLine => true
  | _, _ => false
  end.

(** The class and its base classes. *)
Definition mro (c : exc_class) : list exc_class :=
  match c with
  | Exception => [Exception]
  | OSError => [OSError; Exception]
  | FileNotFoundError => [FileNotFoundError; OSError; Exception]
  | TimeoutError => [TimeoutError; OSError; Exception]
  | ValueError => [ValueError; Exception]
  | UnicodeDecodeError => [UnicodeDecodeError; ValueError; Exception]
  | ZeroDivisionError => [ZeroDivisionError; Exception]
  | URLError => [URLError; OSError; Exception]
  | HTTPError => [HTTPError; URLError; OSError; Exception]
  | HTTPException => [HTTPException; Exception]
  | BadStatusLine => [BadStatusLine; HTTPException; Exception]
  end.

Definition issubclass (c d : exc_class) : bool :=
  existsb (exc_class_eqb d) (mro c).

(** An exception object: its class and [str(e)]. *)
Record exn := mk_exn { exn_class : exc_class; exn_str : str }.

Definition isinstance (e : exn) (c : exc_class) : bool :=
  issubclass (exn_class e) c.

(** ** JSON-like values: the dicts, lists, strings and ints of a payload *)

#[local] Set Warnings "-register-all".

Inductive json :=
| JStr (s : str)
| JInt (n : Z)
| JList (l : list json)
| JDict (kv : list (str * json)).

(** One step into a value: [v["key"]] or [v[i]]. *)
Inductive sel := Key (k : string) | Idx (i : nat).

Fixpoint assoc (k : str) (kv : list (str * json)) : option json :=
  match kv with
  | [] => None
  | (k', v) :: r => if str_eqb k k' then Some v else assoc k r
  end.

Definition get (s : sel) (v : json) : option json :=
  match s, v with
  | Key k, JDict kv => assoc (lit k) kv
  | Idx i, JList l => nth_error l i
  | _, _ => None
  end.

Fixpoint at_path (p : list sel) (v : json) : option json :=
  match p with
  | [] => Some v
  | s :: r => match get s v with Some w => at_path r w | None => None end
  end.

(** [len(v)] of a list value. *)
Definition items (v : json) : option nat :=
  match v with JList l => Some (length l) | _ => None end.

(** ** The run: environment, state and effects *)

(** What [urlopen] hands back when it returns: only the status is read. *)
Record response := mk_response { status : Z }.

(** A [Request] as passed to [urlopen]; [req_json] is the payload whose
    JSON text, encoded as UTF-8, is the body (so the method is POST). *)
Record request := mk_request {
  req_url : str;
  req_json : json;
  req_headers : list (str * str);
  req_timeout : Z
}.

(** The world outside the script. [open_lines p] is what opening [p] as
    UTF-8 text and iterating over it gives: the lines as the iterator yields
    them (each with its line end), or the exception raised on the way.
    [time_time k] is the [k]-th reading of [time.time()]; [urlopen k r] is
    the outcome of the [k]-th call of [urlopen], made with request [r]. *)
Record Env := mk_env {
  open_lines : str -> exn + list str;
  time_time : nat -> Q;
  urlopen : nat -> request -> exn + response
}.

(** One [print] of the script, with the values it interpolates. *)
Inductive event :=
| EReading (file_path : str)
| EFound (total_lines : Z)
| ESendingTo (endpoint : str)
| EBlank
| EFailedStatus (st : Z) (preview : str)
| EError (descr : str)
| EProgress (sent total_lines : Z) (rate : Q)
| ERule
| EComplete
| ESent (sent : Z)
| EFailed (failed : Z)
| ETime (elapsed : Q)
| ERate (rate : Q)
| EQueryResults
| EQueryCurl.

(** The text of the two diagnostic lines (the other lines format floats). *)
Definition render (e : event) : option str :=
  match e with
  | EFailedStatus st preview =>
      Some (lit "Failed to send log (status " ++ str_of_int st ++ lit "): "
            ++ preview ++ lit "...")
  | EError descr => Some (lit "Error sending log: " ++ descr)
  | _ => None
  end.

(** The state of a run: the counters of [send_logs], what was printed, the
    requests handed to [urlopen], and how often the clock was read. *)
Record State := mk_state {
  sent : Z;
  failed : Z;
  stdout : list event;
  posts : list request;
  ticks : nat
}.

Definition initial : State :=
  {| sent := 0; failed := 0; stdout := []; posts := []; ticks := 0 |}.

(** A computation: from a state to the state it leaves and either the
    exception it raised or its value. *)
Definition M (A : Type) : Type := State -> State * (exn + A).

Definition ret {A} (a : A) : M A := fun s => (s, inr a).

Definition raise {A} (e : exn) : M A := fun s => (s, inl e).

Definition bind {A B} (c : M A) (k : A -> M B) : M B :=
  fun s => match c s with
           | (s1, inr a) => k a s1
           | (s1, inl e) => (s1, inl e)
           end.

Notation "x <- c ;; k" := (bind c (fun x => k))
  (at level 61, c at next level, right associativity).
Notation "c ;; k" := (bind c (fun _ => k))
  (at level 61, right associativity).

(** [try: c except classes as e: handler e] *)
Definition try_except {A} (c : M A) (classes : list exc_class)
    (handler : exn -> M A) : M A :=
  fun s => match c s with
           | (s1, inl e) =>
               if existsb (isinstance e) classes then handler e s1
               else (s1, inl e)
           | r => r
           end.

(** [for x in l: body x] *)
Fixpoint for_each {A} (l : list A) (body : A -> M unit) : M unit :=
  match l with
  | [] => ret tt
  | x :: r => body x ;; for_each r body
  end.

Definition print (e : event) : M unit :=
  fun s => ({| sent := sent s; failed := failed s;
               stdout := stdout s ++ [e];
               posts := posts s; ticks := ticks s |}, inr tt).

Definition set_sent (v : Z) : M unit :=
  fun s => ({| sent := v; failed := failed s; stdout := stdout s;
               posts := posts s; ticks := ticks s |}, inr tt).

Definition set_failed (v : Z) : M unit :=
  fun s => ({| sent := sent s; failed := v; stdout := stdout s;
               posts := posts s; ticks := ticks s |}, inr tt).

Definition get_sent : M Z := fun s => (s, inr (sent s)).

Definition get_failed : M Z := fun s => (s, inr (failed s)).

(** [time.time()] *)
Definition time (env : Env) : M Q :=
  fun s => ({| sent := sent s; failed := failed s; stdout := stdout s;
               posts := posts s; ticks := S (ticks s) |},
            inr (time_time env (ticks s))).

(** [urlopen(req, timeout=t)]: the request is recorded, the environment
    decides the outcome. *)
Definition call_urlopen (env : Env) (url : str) (data : json)
    (headers : list (str * str)) (timeout : Z) : M response :=
  fun s =>
    let req := {| req_url := url; req_json := data;
                  req_headers := headers; req_timeout := timeout |} in
    ({| sent := sent s; failed := failed s; stdout := stdout s;
        posts := posts s ++ [req]; ticks := ticks s |},
     urlopen env (length (posts s)) req).

(** [open(file_path, 'r', encoding='utf-8')] and the iteration over it. *)
Definition read_lines (env : Env) (file_path : str) : M (list str) :=
  fun s => (s, open_lines env file_path).

(** [a / b] on floats: [ZeroDivisionError] when [b] is zero. *)
Definition truediv (a b : Q) : M Q :=
  if Qeq_bool b 0
  then raise {| exn_class := ZeroDivisionError;
                exn_str := lit "float division by zero" |}
  else ret (a / b)%Q.

(** [x > 0] on floats. *)
Definition positive (x : Q) : bool := negb (Qle_bool x 0).

(** ** The script *)

Definition OTLP_ENDPOINT : str := lit "http://localhost:4318/v1/logs".

(** [{"key": k, "value": {"stringValue": v}}] *)
Definition attribute (k : string) (v : str) : json :=
  JDict [(lit "key", JStr (lit k));
         (lit "value", JDict [(lit "stringValue", JStr v)])].

(** The dict [create_otlp_payload] returns, given the clock reading in
    nanoseconds. *)
Definition otlp_payload (now_ns : Z) (log_body severity : str) : json :=
  JDict [
    (lit "resourceLogs", JList [
      JDict [
        (lit "resource", JDict [
          (lit "attributes", JList [
            attribute "service.name" (lit "real-logs");
            attribute "host.name" (lit "combo");
            attribute "deployment.environment" (lit "production")])]);
        (lit "scopeLogs", JList [
          JDict [
            (lit "scope", JDict [
              (lit "name", JStr (lit "file-log-sender"));
              (lit "version", JStr (lit "1.0.0"))]);
            (lit "logRecords", JList [
              JDict [
                (lit "timeUnixNano", JStr (str_of_int now_ns));
                (lit "observedTimeUnixNano", JStr (str_of_int now_ns));
                (lit "severityNumber", JInt 9);
                (lit "severityText", JStr severity);
                (lit "body", JDict [(lit "stringValue", JStr log_body)]);
                (lit "attributes", JList [
                  attribute "log.level" (lower severity);
                  attribute "log.source" (lit "file")])]])]])]])].

(** The default of the parameter [severity]. *)
Definition severity_default : str := lit "INFO".

(** The default of the parameter [batch_size]. *)
Definition batch_size_default : Z := 100.

(** [now_ns = int(time.time() * 1_000_000_000)] *)
Definition ns_of (t : Q) : Z :=
  int_of_float (float_mul t (inject_Z 1000000000)).

Definition create_otlp_payload (env : Env) (log_body severity : str) : M json :=
  t <- time env ;;
  let now_ns := ns_of t in
  ret (otlp_payload now_ns log_body severity).

(** [lines = [line.strip() for line in f if line.strip()]] *)
Definition stripped (raw : list str) : list str :=
  map strip (filter (fun line => truthy (strip line)) raw).

(** The body of [for line in batch]. *)
Definition send_line (env : Env) (line : str) : M unit :=
  payload <- create_otlp_payload env line severity_default ;;
  try_except
    (response <- call_urlopen env OTLP_ENDPOINT payload
                   [(lit "Content-Type", lit "application/json")] 5 ;;
     if status response =? 200 then
       n <- get_sent ;; set_sent (n + 1)
     else
       n <- get_failed ;; set_failed (n + 1) ;;
       print (EFailedStatus (status response) (prefix 80 line)))
    [HTTPError; URLError]
    (fun e =>
       n <- get_failed ;; set_failed (n + 1) ;;
       print (EError (exn_str e))).

(** [rate = sent / elapsed if elapsed > 0 else 0] *)
Definition rate_of (sent : Z) (elapsed : Q) : M Q :=
  if positive elapsed then truediv (inject_Z sent) elapsed else ret 0%Q.

(** The progress update after a batch. *)
Definition progress_update (env : Env) (total_lines : Z) (start_time : Q)
    : M unit :=
  now <- time env ;;
  let elapsed := (now - start_time)%Q in
  n <- get_sent ;;
  rate <- rate_of n elapsed ;;
  print (EProgress n total_lines rate).

(** The body of [for i in range(0, total_lines, batch_size)]. *)
Definition send_batch (env : Env) (lines : list str)
    (total_lines batch_size : Z) (start_time : Q) (i : Z) : M unit :=
  let batch := slice lines i (i + batch_size) in
  for_each batch (send_line env) ;;
  if mod_ (i + batch_size) 500 =? 0
  then progress_update env total_lines start_time
  else ret tt.

(** The final statistics. *)
Definition final_stats (env : Env) (start_time : Q) : M unit :=
  now <- time env ;;
  let elapsed := (now - start_time)%Q in
  n <- get_sent ;;
  rate <- rate_of n elapsed ;;
  f <- get_failed ;;
  print EBlank ;;
  print ERule ;;
  print EComplete ;;
  print (ESent n) ;;
  print (EFailed f) ;;
  print (ETime elapsed) ;;
  print (ERate rate) ;;
  print ERule ;;
  print EBlank ;;
  print EQueryResults ;;
  print EQueryCurl.

(** [range(0, total_lines, batch_size)] at the head of the outer loop. *)
Definition batch_starts (total_lines batch_size : Z) : M (list Z) :=
  match range 0 total_lines batch_size with
  | Some l => ret l
  | None => raise {| exn_class := ValueError;
                     exn_str := lit "range() arg 3 must not be zero" |}
  end.

(** The sending loop. *)
Definition sending_loop (env : Env) (lines : list str)
    (total_lines batch_size : Z) (start_time : Q) : M unit :=
  starts <- batch_starts total_lines batch_size ;;
  for_each starts (send_batch env lines total_lines batch_size start_time).

Definition send_logs (env : Env) (file_path : str) (batch_size : Z) : M unit :=
  print (EReading file_path) ;;
  raw <- read_lines env file_path ;;
  let lines := stripped raw in
  let total_lines := len lines in
  print (EFound total_lines) ;;
  print (ESendingTo OTLP_ENDPOINT) ;;
  print EBlank ;;
  set_sent 0 ;;
  set_failed 0 ;;
  start_time <- time env ;;
  sending_loop env lines total_lines batch_size start_time ;;
  final_stats env start_time.

(** The state in which the sending loop of [send_logs] starts. *)
Definition loop_entry (env : Env) (file_path : str) (lines : list str)
    : State :=
  {| sent := 0; failed := 0;
     stdout := [EReading file_path; EFound (len lines);
                ESendingTo OTLP_ENDPOINT; EBlank];
     posts := []; ticks := 1 |}.

Section Main.

(** The builtin [int] on a string: [None] where it raises [ValueError]. *)
Variable int_of_str : str -> option Z.

Definition int_ (a : str) : M Z :=
  match int_of_str a with
  | Some n => ret n
  | None => raise {| exn_class := ValueError;
                     exn_str := lit "invalid literal for int() with base 10" |}
  end.

(** The block under [if __name__ == "__main__"], given [sys.argv]. *)
Definition main (env : Env) (argv : list str) : M unit :=
  let file_path :=
    if 1 <? len argv then nth 1 argv [] else lit "tmp/logs.txt" in
  batch_size <-
    (if 2 <? len argv then int_ (nth 2 argv []) else ret 100) ;;
  send_logs env file_path batch_size.

End Main.

(** The run of the script from the state in which a process starts. *)
Definition run {A} (c : M A) : State * (exn + A) := c initial.

(** A decimal reader that agrees with [int] on plain ASCII literals: an
    optional sign and one or more digits. *)
Fixpoint digits_value (acc : Z) (s : str) : option Z :=
  match s with
  | [] => Some acc
  | c :: r =>
      if ((48 <=? c) && (c <=? 57))%N
      then digits_value (10 * acc + (Z.of_N c - 48)) r
      else None
  end.

Definition ascii_int (s : str) : option Z :=
  match s with
  | [] => None
  | c :: r =>
      if (c =? 45)%N then
        match r with [] => None | _ => option_map Z.opp (digits_value 0 r) end
      else if (c =? 43)%N then
        match r with [] => None | _ => digits_value 0 r end
      else digits_value 0 s
  end.

(** ** Vocabulary of the properties *)

(** The path of the one log record in a payload. *)
Definition record_path : list sel :=
  [Key "resourceLogs"; Idx 0; Key "scopeLogs"; Idx 0; Key "logRecords"; Idx 0].

(** [record[name]] of the log record of payload [p]. *)
Definition record_field (name : string) (p : json) : option json :=
  at_path (record_path ++ [Key name]) p.

(** [record["body"]["stringValue"]] *)
Definition body_of (p : json) : option json :=
  at_path (record_path ++ [Key "body"; Key "stringValue"]) p.

(** [len(v[p])] for the list at path [p] of [v]. *)
Definition count_at (p : list sel) (v : json) : option nat :=
  match at_path p v with Some w => items w | None => None end.

(** The request [send_line] hands to [urlopen] for [line] in state [s]. *)
Definition request_of (env : Env) (line : str) (s : State) : request :=
  {| req_url := OTLP_ENDPOINT;
     req_json := otlp_payload (ns_of (time_time env (ticks s))) line
                   severity_default;
     req_headers := [(lit "Content-Type", lit "application/json")];
     req_timeout := 5 |}.

(** The classes the [except] clause of [send_line] names. *)
Definition caught (e : exn) : bool :=
  existsb (isinstance e) [HTTPError; URLError].

(** [needle in hay] *)
Definition contains (needle hay : str) : Prop :=
  exists pre post, hay = pre ++ needle ++ post.

(** The same as a test. *)
Fixpoint starts_with (p s : str) : bool :=
  match p, s with
  | [], _ => true
  | _ :: _, [] => false
  | a :: p', b :: s' => (a =? b)%N && starts_with p' s'
  end.

Fixpoint is_infix (needle hay : str) : bool :=
  starts_with needle hay
  || match hay with [] => false | _ :: r => is_infix needle r end.

(** A line that is empty or consists of white space only. *)
Definition blank (line : str) : bool := forallb isspace line.

Definition is_progress (e : event) : bool :=
  match e with EProgress _ _ _ => true | _ => false end.

Definition progress_count (out : list event) : nat :=
  length (filter is_progress out).

(** The lines of the final statistics. *)
Definition is_final_stats (e : event) : bool :=
  match e with
  | ERule | EComplete | ESent _ | EFailed _ | ETime _ | ERate _
  | EQueryResults | EQueryCurl => true
  | _ => false
  end.

(** [at_head body l s rest s']: the loop [for x in l: body x], started in
    state [s], stands in state [s'] at the head of an iteration with the
    elements [rest] still to come (with [rest] empty, it has ended). *)
Inductive at_head {A} (body : A -> M unit)
  : list A -> State -> list A -> State -> Prop :=
| at_head_here l s : at_head body l s l s
| at_head_next x l s s1 rest s2 :
    body x s = (s1, inr tt) ->
    at_head body l s1 rest s2 ->
    at_head body (x :: l) s rest s2.

(** The counters account for the requests handed to [urlopen]. *)
Definition accounted (s : State) : Prop := sent s + failed s = len (posts s).

(** The request carries a line of the file that is not blank, trimmed. *)
Definition carries_kept_line (raw : list str) (rq : request) : Prop :=
  exists l, In l raw /\ blank l = false
            /\ body_of (req_json rq) = Some (JStr (strip l)).

(** The raw lines the reading of the file keeps. *)
Definition kept (raw : list str) : list str :=
  filter (fun l => negb (blank l)) raw.

(** The batch the outer loop cuts at start index [i]. *)
Definition batch_at (lines : list str) (batch_size i : Z) : list str :=
  slice lines i (i + batch_size).

(** Does the batch at start index [i] end with a progress line? *)
Definition progress_due (batch_size i : Z) : bool :=
  mod_ (i + batch_size) 500 =? 0.

(** The words of the specification: the count of processed lines passes a
    multiple of 500 when it goes from [before] to [after]. *)
Definition crosses_500 (before after : Z) : Prop :=
  exists k, 0 < k /\ before < 500 * k <= after.

(** ** Concrete environments *)

Definition ok (st : Z) : exn + response := inr {| status := st |}.

(** The [HTTPError] of a status, with [str(e)] as urllib formats it. *)
Definition http_error (st : Z) (reason : str) : exn :=
  {| exn_class := HTTPError;
     exn_str := lit "HTTP Error " ++ str_of_int st ++ lit ": " ++ reason |}.

(** What [urlopen] does with the final status of an exchange: a status
    from 200 to 299 comes back as the response, any other status is raised
    as [HTTPError]. *)
Definition answer (st : Z) (reason : str) : exn + response :=
  if (200 <=? st) && (st <? 300) then ok st else inl (http_error st reason).

(** A clock that advances by one second at every reading. *)
Definition steady_clock (k : nat) : Q := inject_Z (Z.of_nat k).

(** A clock that is set back after its first reading. *)
Definition clock_set_back (k : nat) : Q :=
  match k with O => inject_Z 10 | S _ => inject_Z 5 end.

(** Every path opens and holds [raw]; every post is answered with [st]. *)
Definition env_status (raw : list str) (st : Z) : Env :=
  {| open_lines := fun _ => inr raw;
     time_time := steady_clock;
     urlopen := fun _ _ => answer st (lit "status") |}.

(** The same with the reason phrase of the answer given. *)
Definition env_answer (raw : list str) (st : Z) (reason : str) : Env :=
  {| open_lines := fun _ => inr raw;
     time_time := steady_clock;
     urlopen := fun _ _ => answer st reason |}.

(** Every reading of the clock is [t]. *)
Definition env_clock_at (t : Q) : Env :=
  {| open_lines := fun _ => inr [];
     time_time := fun _ => t;
     urlopen := fun _ _ => ok 200 |}.

Definition env_clock_set_back (raw : list str) : Env :=
  {| open_lines := fun _ => inr raw;
     time_time := clock_set_back;
     urlopen := fun _ _ => ok 200 |}.

(** Every call of [urlopen] raises [e]. *)
Definition env_raising (raw : list str) (e : exn) : Env :=
  {| open_lines := fun _ => inr raw;
     time_time := steady_clock;
     urlopen := fun _ _ => inl e |}.

(** No path can be opened. *)
Definition env_no_file : Env :=
  {| open_lines := fun _ =>
       inl {| exn_class := FileNotFoundError;
              exn_str := lit "No such file or directory" |};
     time_time := steady_clock;
     urlopen := fun _ _ => ok 200 |}.

Definition connection_refused : exn :=
  {| exn_class := URLError;
     exn_str := lit "<urlopen error [Errno 111] Connection refused>" |}.

(** What [http.client] raises on a status line it cannot read. *)
Definition bad_status_line : exn :=
  {| exn_class := BadStatusLine; exn_str := lit "garbage" |}.

(** ** Vocabulary of further properties *)

(** The two diagnostic lines. *)
Definition is_diagnostic (e : event) : bool :=
  match e with EFailedStatus _ _ | EError _ => true | _ => false end.

Definition diagnostics (out : list event) : list event :=
  filter is_diagnostic out.

(** [body.stringValue] of the payload of every request, in order. *)
Definition bodies (reqs : list request) : list (option json) :=
  map (fun rq => body_of (req_json rq)) reqs.

(** What a payload holds for a line. *)
Definition wrap (line : str) : option json := Some (JStr line).

(** Where and how [send_line] posts. *)
Definition well_addressed (rq : request) : Prop :=
  req_url rq = OTLP_ENDPOINT
  /\ req_headers rq = [(lit "Content-Type", lit "application/json")]
  /\ req_timeout rq = 5.

(** The lines the final statistics print, given the values they show. *)
Definition final_block (sent failed : Z) (elapsed rate : Q) : list event :=
  [EBlank; ERule; EComplete; ESent sent; EFailed failed; ETime elapsed;
   ERate rate; ERule; EBlank; EQueryResults; EQueryCurl].

(** The lines printed before the sending loop. *)
Definition header (file_path : str) (total_lines : Z) : list event :=
  [EReading file_path; EFound total_lines; ESendingTo OTLP_ENDPOINT; EBlank].

(** Two states agree on what was delivered: the counters, the lines
    posted and the diagnostic lines. *)
Definition same_delivery (s t : State) : Prop :=
  sent s = sent t /\ failed s = failed t
  /\ bodies (posts s) = bodies (posts t)
  /\ diagnostics (stdout s) = diagnostics (stdout t).

(** The answer of the endpoint depends on the position of the call and on
    the line posted, not on the rest of the request (the time stamps). *)
Definition answers_by_line (env : Env) : Prop :=
  forall k rq rq',
    body_of (req_json rq) = body_of (req_json rq') ->
    urlopen env k rq = urlopen env k rq'.

(** Whatever [urlopen] raises is a [URLError]. *)
Definition raises_only_url_errors (env : Env) : Prop :=
  forall k rq e, urlopen env k rq = inl e -> isinstance e URLError = true.

(** An environment whose endpoint answers 200 to the calls at even
    positions and refuses the connection at odd ones. *)
Definition env_flaky (raw : list str) : Env :=
  {| open_lines := fun _ => inr raw;
     time_time := steady_clock;
     urlopen := fun k _ => if Nat.even k then ok 200
                           else inl connection_refused |}.

(** ** Facts about the Python prelude *)

(** Splits a statement about a concrete run into its parts and evaluates
    those that are closed equations. *)
Ltac evaluate_run :=
  cbv zeta;
  repeat match goal with |- _ /\ _ => split end;
  try (vm_compute; reflexivity).


Lemma unlit_lit (s : string) : unlit (lit s) = s.
Proof.
  unfold unlit, lit. rewrite map_map.
  rewrite (map_ext _ (fun a => a) ascii_N_embedding), map_id.
  apply string_of_list_ascii_of_string.
Qed.

(** [str(n)] is the decimal text of [n]: reading it back gives [n]. *)
Lemma int_of_decimal_str_of_int (n : Z) : int_of_decimal (str_of_int n) = Some n.
Proof.
  unfold int_of_decimal, str_of_int. rewrite unlit_lit.
  rewrite NilZero.isi.
  - cbn. now rewrite DecimalZ.of_to.
  - destruct n; cbn; try discriminate.
    intro H; injection H as H. now apply DecimalPos.Unsigned.to_uint_nonnil in H.
  - destruct n; cbn; try discriminate.
    intro H; injection H as H. now apply DecimalPos.Unsigned.to_uint_nonnil in H.
Qed.

Lemma lstrip_nil_iff (s : str) : lstrip s = [] <-> blank s = true.
Proof.
  unfold blank. induction s as [|c r IH]; cbn; [tauto|].
  destruct (isspace c); cbn; [exact IH|]. split; discriminate.
Qed.

Lemma lstrip_blank_app (a b : str) :
  blank a = true -> lstrip (a ++ b) = lstrip b.
Proof.
  unfold blank. induction a as [|c r IH]; cbn; [reflexivity|].
  destruct (isspace c); cbn; [exact IH|discriminate].
Qed.

Lemma blank_app (a b : str) : blank (a ++ b) = blank a && blank b.
Proof. apply forallb_app. Qed.

Lemma blank_rev (a : str) : blank (rev a) = blank a.
Proof.
  induction a as [|c r IH]; [reflexivity|].
  cbn [rev]. rewrite blank_app, IH. cbn. rewrite andb_true_r. apply andb_comm.
Qed.

(** What [lstrip] drops is white space, and what it keeps does not start
    with white space. *)
Lemma lstrip_split (s : str) :
  exists ws, s = ws ++ lstrip s /\ blank ws = true.
Proof.
  induction s as [|c r [ws [E B]]]; [exists []; split; reflexivity|].
  cbn [lstrip]. destruct (isspace c) eqn:C.
  - exists (c :: ws). split; [cbn; now rewrite <- E|cbn; now rewrite C].
  - exists []. split; reflexivity.
Qed.

Lemma lstrip_blank (s : str) : blank s = true -> lstrip s = [].
Proof. apply lstrip_nil_iff. Qed.

(** A line is dropped by the reading of the file exactly when it is blank. *)
Lemma truthy_strip (line : str) : truthy (strip line) = negb (blank line).
Proof.
  unfold strip, rstrip.
  destruct (lstrip_split line) as [ws [E B]].
  destruct (blank line) eqn:Bl.
  - rewrite (lstrip_blank line Bl). reflexivity.
  - assert (Hk : blank (lstrip line) = false).
    { rewrite E, blank_app, B in Bl. exact Bl. }
    assert (Hr : blank (rev (lstrip line)) = false) by now rewrite blank_rev.
    destruct (lstrip (rev (lstrip line))) as [|c r] eqn:L.
    + apply lstrip_nil_iff in L. congruence.
    + cbn [rev]. destruct (rev r); reflexivity.
Qed.

Lemma strip_nil_iff (line : str) : strip line = [] <-> blank line = true.
Proof.
  generalize (truthy_strip line). destruct (strip line), (blank line); cbn;
    intuition congruence.
Qed.

(** [strip] cuts white space from both ends and nothing else, and what is
    left neither starts nor ends with white space. *)
Lemma strip_spec (line : str) :
  exists l r, line = l ++ strip line ++ r /\ blank l = true /\ blank r = true
    /\ (forall c t, strip line = c :: t -> isspace c = false)
    /\ (forall c t, strip line = t ++ [c] -> isspace c = false).
Proof.
  unfold strip, rstrip.
  destruct (lstrip_split line) as [l [El Bl]].
  destruct (lstrip_split (rev (lstrip line))) as [r [Er Br]].
  exists l, (rev r). repeat split.
  - rewrite <- rev_app_distr, <- Er, rev_involutive. exact El.
  - exact Bl.
  - now rewrite blank_rev.
  - intros c t H.
    assert (Hin : lstrip line = c :: t ++ rev r).
    { rewrite <- (rev_involutive (lstrip line)), Er, rev_app_distr, H.
      reflexivity. }
    clear - Hin. induction line as [|a q IH]; [discriminate|].
    cbn [lstrip] in Hin. destruct (isspace a) eqn:A; [auto|]. congruence.
  - intros c t H.
    assert (Hin : lstrip (rev (lstrip line)) = c :: rev t).
    { rewrite <- (rev_involutive (lstrip (rev _))), H, rev_app_distr.
      reflexivity. }
    clear - Hin. induction (rev (lstrip line)) as [|a q IH]; [discriminate|].
    cbn [lstrip] in Hin. destruct (isspace a) eqn:A; [auto|]. congruence.
Qed.

(** ** Rounding to binary64 *)

Lemma nearest_even_spec (n : Z) (d : BinNums.positive) :
  0 <= n ->
  let m := nearest_even n d in
  0 <= m /\ - Z.pos d <= 2 * (m * Z.pos d - n) <= Z.pos d.
Proof.
  intros Hn. unfold nearest_even.
  pose proof (Z.div_mod n (Z.pos d) ltac:(lia)) as D.
  pose proof (Z.mod_pos_bound n (Z.pos d) ltac:(lia)) as B.
  assert (Q0 : 0 <= n / Z.pos d) by (apply Z.div_pos; lia).
  set (q := n / Z.pos d) in *. set (r := n mod Z.pos d) in *.
  destruct (Z.compare_spec (2 * r) (Z.pos d)) as [E|L|G].
  - destruct (Z.even q); cbv zeta; nia.
  - cbv zeta. nia.
  - cbv zeta. nia.
Qed.

Lemma floor_log2_spec (n d : BinNums.positive) :
  (d <= n)%positive ->
  let E := floor_log2 n d in
  0 <= E /\ 2 ^ E * Z.pos d <= Z.pos n < 2 ^ (E + 1) * Z.pos d.
Proof.
  intros Hd. unfold floor_log2.
  pose proof (Z.log2_spec (Z.pos n) ltac:(lia)) as [Ln Un].
  pose proof (Z.log2_spec (Z.pos d) ltac:(lia)) as [Ld Ud].
  pose proof (Z.log2_nonneg (Z.pos n)) as Nn.
  pose proof (Z.log2_nonneg (Z.pos d)) as Nd.
  assert (Hk : 0 <= Z.log2 (Z.pos n) - Z.log2 (Z.pos d)).
  { pose proof (Z.log2_le_mono (Z.pos d) (Z.pos n) ltac:(lia)). lia. }
  set (a := Z.log2 (Z.pos n)) in *. set (b := Z.log2 (Z.pos d)) in *.
  set (k := a - b) in *.
  rewrite (Z.max_r 0 k) by lia. rewrite (Z.max_l 0 (- k)) by lia.
  rewrite Z.pow_0_r, Z.mul_1_l.
  assert (Ha : 2 ^ a = 2 ^ k * 2 ^ b).
  { rewrite <- Z.pow_add_r by lia. f_equal. lia. }
  assert (P2k : 0 < 2 ^ k) by (apply Z.pow_pos_nonneg; lia).
  assert (P2b : 0 < 2 ^ b) by (apply Z.pow_pos_nonneg; lia).
  rewrite Z.pow_succ_r in Un, Ud by lia.
  destruct (Z.leb_spec (2 ^ k * Z.pos d) (Z.pos n)) as [T|T]; cbv zeta.
  - split; [lia|]. split; [exact T|].
    rewrite Z.pow_add_r, Z.pow_1_r by lia. nia.
  - assert (K1 : 1 <= k).
    { destruct (Z.eq_dec k 0) as [K0|]; [|lia].
      rewrite K0, Z.pow_0_r in T. lia. }
    split; [lia|].
    replace (k - 1 + 1) with k by lia. split; [|exact T].
    assert (E2 : 2 ^ k = 2 * 2 ^ (k - 1)).
    { rewrite <- Z.pow_succ_r by lia. f_equal. lia. }
    assert (0 < 2 ^ (k - 1)) by (apply Z.pow_pos_nonneg; lia). nia.
Qed.

Lemma round_pos_trunc_bounds (n d : BinNums.positive) :
  (d <= n)%positive ->
  let v := int_of_float (round_pos n d) in
  0 <= v
  /\ v * Z.pos d * 2 ^ 53 <= Z.pos n * (2 ^ 53 + 1)
  /\ Z.pos n * (2 ^ 53 - 1) < (v + 1) * Z.pos d * 2 ^ 53.
Proof.
  intros Hd. cbv zeta. unfold round_pos, int_of_float.
  destruct (floor_log2_spec n d Hd) as (E0 & EL & EU).
  set (E := floor_log2 n d) in *.
  rewrite (Z.max_l (E - 52) (-1074)) by lia.
  destruct (Z.leb_spec 0 (E - 52)) as [He|He].
  - set (P := 2 ^ (E - 52)).
    assert (PP : 0 < P) by (apply Z.pow_pos_nonneg; lia).
    assert (EP : 2 ^ E = P * 2 ^ 52).
    { unfold P. rewrite <- Z.pow_add_r by lia. f_equal. lia. }
    destruct (nearest_even_spec (Z.pos n) (d * Z.to_pos P) ltac:(lia))
      as (M0 & ML & MU).
    set (m := nearest_even (Z.pos n) (d * Z.to_pos P)) in *.
    rewrite Pos2Z.inj_mul, Z2Pos.id in ML, MU by lia.
    cbn [inject_Z Qnum Qden]. rewrite Z.quot_1_r.
    change (2 ^ 53) with (2 * 2 ^ 52). nia.
  - set (R := 2 ^ (- (E - 52))).
    assert (PR : 0 < R) by (apply Z.pow_pos_nonneg; lia).
    assert (ER : 2 ^ E * R = 2 ^ 52).
    { unfold R. rewrite <- Z.pow_add_r by lia. f_equal. lia. }
    destruct (nearest_even_spec (Z.pos n * R) d ltac:(lia)) as (M0 & ML & MU).
    set (m := nearest_even (Z.pos n * R) d) in *.
    cbn [Qnum Qden]. rewrite Z2Pos.id by lia.
    rewrite Z.quot_div_nonneg by lia.
    pose proof (Z.div_mod m R ltac:(lia)) as D.
    pose proof (Z.mod_pos_bound m R PR) as B.
    assert (V0 : 0 <= m / R) by (apply Z.div_pos; lia).
    set (v := m / R) in *. set (w := m mod R) in *.
    assert (K : Z.pos d * 2 ^ 52 <= Z.pos n * R) by (rewrite <- ER; nia).
    split; [exact V0|]. change (2 ^ 53) with (2 * 2 ^ 52).
    split.
    + apply (Z.mul_le_mono_pos_r _ _ R PR). nia.
    + apply (Z.mul_lt_mono_pos_r R _ _ PR). nia.
Qed.

(** The time stamp of a reading at or after the first second of the
    epoch: the product of the reading and [10^9], up to the rounding of a
    binary64 float (a relative error of at most [2^-53]) and the
    truncation to an integer. *)
Lemma ns_of_pos (p td : BinNums.positive) :
  ns_of (Z.pos p # td)
  = int_of_float (round_pos (p * 1000000000) (td * 1)).
Proof. reflexivity. Qed.

Lemma ns_of_bounds (t : Q) :
  (1 <= t)%Q ->
  let x := (t * inject_Z 1000000000)%Q in
  0 <= ns_of t
  /\ (inject_Z (ns_of t) <= x * (1 + (1 # 9007199254740992)))%Q
  /\ (x * (1 - (1 # 9007199254740992)) < inject_Z (ns_of t) + 1)%Q.
Proof.
  destruct t as [tn td]. unfold Qle at 1. cbn [Qnum Qden]. intros H1.
  destruct tn as [|p|p]; try lia.
  assert (Hd : (td * 1 <= p * 1000000000)%positive) by lia.
  cbv zeta. rewrite ns_of_pos.
  destruct (round_pos_trunc_bounds _ _ Hd) as (V0 & VU & VL).
  set (v := int_of_float (round_pos (p * 1000000000) (td * 1))) in *.
  change (2 ^ 53) with 9007199254740992 in *.
  split; [exact V0|].
  unfold Qminus, Qopp. unfold Qle, Qlt, Qmult, Qplus, inject_Z.
  cbn [Qnum Qden].
  rewrite ?Pos2Z.inj_mul in *. split; lia.
Qed.

(** ** One send attempt *)

(** [time.time()] reads the clock once and changes nothing else. *)
Lemma time_eq (env : Env) (s : State) :
  time env s =
  ({| sent := sent s; failed := failed s; stdout := stdout s;
      posts := posts s; ticks := S (ticks s) |},
   inr (time_time env (ticks s))).
Proof. reflexivity. Qed.

(** The body of the inner loop, case by case on what [urlopen] does. *)
Lemma send_line_eq (env : Env) (line : str) (s : State) :
  send_line env line s =
  let req := request_of env line s in
  match urlopen env (length (posts s)) req with
  | inr resp =>
      if status resp =? 200 then
        ({| sent := sent s + 1; failed := failed s; stdout := stdout s;
            posts := posts s ++ [req]; ticks := S (ticks s) |}, inr tt)
      else
        ({| sent := sent s; failed := failed s + 1;
            stdout := stdout s
                      ++ [EFailedStatus (status resp) (prefix 80 line)];
            posts := posts s ++ [req]; ticks := S (ticks s) |}, inr tt)
  | inl e =>
      if caught e then
        ({| sent := sent s; failed := failed s + 1;
            stdout := stdout s ++ [EError (exn_str e)];
            posts := posts s ++ [req]; ticks := S (ticks s) |}, inr tt)
      else
        ({| sent := sent s; failed := failed s; stdout := stdout s;
            posts := posts s ++ [req]; ticks := S (ticks s) |}, inl e)
  end.
Proof.
  cbv beta iota zeta delta
    [send_line try_except bind create_otlp_payload call_urlopen request_of
     caught time ret get_sent set_sent get_failed set_failed print
     sent failed stdout posts ticks].
  destruct (urlopen env _ _) as [e|resp].
  - destruct (existsb (isinstance e) [HTTPError; URLError]); reflexivity.
  - destruct (status resp =? 200); reflexivity.
Qed.

(** Every attempt hands exactly one request to [urlopen]. *)
Lemma send_line_posts (env : Env) (line : str) (s : State) :
  posts (fst (send_line env line s)) = posts s ++ [request_of env line s].
Proof.
  rewrite send_line_eq. cbv zeta.
  destruct (urlopen env _ _) as [e|resp];
    [destruct (caught e)|destruct (status resp =? 200)]; reflexivity.
Qed.

(** An attempt that returns has incremented exactly one counter. *)
Lemma send_line_counts (env : Env) (line : str) (s s' : State) :
  send_line env line s = (s', inr tt) ->
  (sent s' = sent s + 1 /\ failed s' = failed s)
  \/ (sent s' = sent s /\ failed s' = failed s + 1).
Proof.
  rewrite send_line_eq. cbv zeta.
  destruct (urlopen env _ _) as [e|resp];
    [destruct (caught e)|destruct (status resp =? 200)];
    intro H; inversion H; subst; cbn; auto.
Qed.

Lemma contains_mid (a x b : str) : contains x (a ++ x ++ b).
Proof. now exists a, b. Qed.

(** ** The payload *)

(** C4: for every input line, the payload built for it has the trimmed line
    as [body.stringValue], ["INFO"] (the default) as [severityText] and 9 as
    [severityNumber]; this payload is the one [send_line] posts. *)
Theorem payload_body_and_severity (env : Env) (raw : str) (s : State) :
  let line := strip raw in
  let payload :=
    otlp_payload (ns_of (time_time env (ticks s))) line severity_default in
  snd (create_otlp_payload env line severity_default s) = inr payload
  /\ posts (fst (send_line env line s)) = posts s ++ [request_of env line s]
  /\ req_json (request_of env line s) = payload
  /\ body_of payload = Some (JStr line)
  /\ record_field "severityText" payload = Some (JStr (lit "INFO"))
  /\ record_field "severityNumber" payload = Some (JInt 9).
Proof.
  cbv zeta. split; [reflexivity|]. split; [apply send_line_posts|].
  repeat split; reflexivity.
Qed.

(** C9: every payload holds one [resourceLogs] entry with one scope and one
    log record; building it reads the clock once, and [timeUnixNano] and
    [observedTimeUnixNano] are both the decimal text of one integer, the
    nanoseconds of that one reading: for a reading of at least one second
    it is the reading times [10^9], up to the rounding of the float
    product and the truncation to an integer. *)
Theorem payload_one_record_one_clock_reading
    (env : Env) (log_body severity : str) (s : State) :
  let t := time_time env (ticks s) in
  let x := (t * inject_Z 1000000000)%Q in
  let now_ns := ns_of t in
  exists payload,
    create_otlp_payload env log_body severity s =
      ({| sent := sent s; failed := failed s; stdout := stdout s;
          posts := posts s; ticks := S (ticks s) |}, inr payload)
    /\ count_at [Key "resourceLogs"] payload = Some 1%nat
    /\ count_at [Key "resourceLogs"; Idx 0; Key "scopeLogs"] payload
       = Some 1%nat
    /\ count_at [Key "resourceLogs"; Idx 0; Key "scopeLogs"; Idx 0;
                 Key "logRecords"] payload = Some 1%nat
    /\ record_field "timeUnixNano" payload = Some (JStr (str_of_int now_ns))
    /\ record_field "observedTimeUnixNano" payload
       = record_field "timeUnixNano" payload
    /\ int_of_decimal (str_of_int now_ns) = Some now_ns
    /\ ((1 <= t)%Q ->
        0 <= now_ns
        /\ (inject_Z now_ns <= x * (1 + (1 # 9007199254740992)))%Q
        /\ (x * (1 - (1 # 9007199254740992)) < inject_Z now_ns + 1)%Q).
Proof.
  cbv zeta.
  exists (otlp_payload (ns_of (time_time env (ticks s))) log_body severity).
  split; [reflexivity|].
  repeat (split; [reflexivity|]).
  split; [apply int_of_decimal_str_of_int|].
  apply ns_of_bounds.
Qed.

Lemma payload_one_record_one_clock_reading_witness :
  let t := (1782579200129453 # 1048576)%Q in
  exists payload,
    snd (create_otlp_payload (env_clock_at t) (lit "disk full") (lit "INFO")
           initial) = inr payload
    /\ record_field "timeUnixNano" payload
       = Some (JStr (lit "1700000000123456000"))
    /\ record_field "observedTimeUnixNano" payload
       = Some (JStr (lit "1700000000123456000"))
    /\ (inject_Z 1700000000123456000
        <= t * inject_Z 1000000000 * (1 + (1 # 9007199254740992)))%Q
    /\ (t * inject_Z 1000000000 * (1 - (1 # 9007199254740992))
        < inject_Z 1700000000123456000 + 1)%Q.
Proof.
  cbv zeta.
  destruct (payload_one_record_one_clock_reading
              (env_clock_at (1782579200129453 # 1048576)) (lit "disk full")
              (lit "INFO") initial)
    as (payload & E & _ & _ & _ & T & O & _ & B).
  destruct (B ltac:(vm_compute; discriminate)) as (_ & U & L).
  exists payload. rewrite E. split; [reflexivity|].
  rewrite O, T.
  assert (N : ns_of (1782579200129453 # 1048576) = 1700000000123456000)
    by (vm_compute; reflexivity).
  cbn [time_time env_clock_at ticks initial] in U, L. rewrite N in U, L.
  split; [reflexivity|]. split; [reflexivity|]. split; [exact U|exact L].
Defined.

(** ** The outcome of one send attempt *)

Lemma starts_with_app (n post : str) : starts_with n (n ++ post) = true.
Proof.
  induction n as [|c n IH]; [reflexivity|].
  cbn. now rewrite N.eqb_refl, IH.
Qed.

Lemma contains_is_infix (needle hay : str) :
  contains needle hay -> is_infix needle hay = true.
Proof.
  intros (pre & post & ->). induction pre as [|c pre IH].
  - cbn [app]. destruct (needle ++ post) eqn:E; cbn [is_infix];
      rewrite <- E, starts_with_app; reflexivity.
  - cbn [app is_infix]. rewrite IH. apply orb_true_r.
Qed.

(** When [urlopen] returns a response, [sent] is incremented exactly when
    its status is 200; with any other status [failed] is incremented and
    one diagnostic line is printed, which shows the status code and the
    first 80 characters of the line. *)
Theorem status_200_sole_success
    (env : Env) (line : str) (s : State) (resp : response) :
  urlopen env (length (posts s)) (request_of env line s) = inr resp ->
  let s' := fst (send_line env line s) in
  snd (send_line env line s) = inr tt
  /\ (sent s' = sent s + 1 <-> status resp = 200)
  /\ (status resp = 200 ->
      failed s' = failed s /\ stdout s' = stdout s)
  /\ (status resp <> 200 ->
      sent s' = sent s /\ failed s' = failed s + 1
      /\ stdout s'
         = stdout s ++ [EFailedStatus (status resp) (firstn 80 line)]
      /\ render (EFailedStatus (status resp) (firstn 80 line))
         = Some (lit "Failed to send log (status "
                 ++ str_of_int (status resp) ++ lit "): "
                 ++ firstn 80 line ++ lit "...")).
Proof.
  intros H. cbv zeta. rewrite send_line_eq. cbv zeta. rewrite H.
  destruct (Z.eqb_spec (status resp) 200) as [E|E]; cbn [fst snd sent failed stdout].
  - repeat split; auto; intros; try lia.
  - repeat split; auto; intros; try lia.
Qed.

Lemma status_200_sole_success_witness :
  let env := env_status [] 204 in
  let line := repeat 120%N 100 in
  let s' := fst (send_line env line initial) in
  sent s' = 0 /\ failed s' = 1
  /\ stdout s' = [EFailedStatus 204 (repeat 120%N 80)].
Proof.
  cbv zeta.
  destruct (status_200_sole_success (env_status [] 204) (repeat 120%N 100)
              initial {| status := 204 |} eq_refl) as (_ & _ & _ & H).
  destruct (H ltac:(discriminate)) as (Hs & Hf & Hd & _).
  split; [exact Hs|]. split; [exact Hf|]. exact Hd.
Defined.

(** C5 fails on the code for the statuses that are errors.  An endpoint
    that answers 503 produces an HTTP response, but [urlopen] raises it as
    [HTTPError], so the attempt leaves by the [except] clause: [failed] is
    incremented and the one diagnostic line shows the status code in the
    text of the error, but not the first 80 characters of the line. *)
Lemma http_error_status_loses_line_preview :
  let env := env_answer [lit "disk full"] 503 (lit "Service Unavailable") in
  let r := run (send_logs env (lit "logs.txt") 100) in
  let text := lit "Error sending log: HTTP Error 503: Service Unavailable" in
  snd r = inr tt
  /\ sent (fst r) = 0
  /\ failed (fst r) = 1
  /\ filter (fun ev => match render ev with Some _ => true | None => false end)
        (stdout (fst r))
     = [EError (lit "HTTP Error 503: Service Unavailable")]
  /\ render (EError (lit "HTTP Error 503: Service Unavailable")) = Some text
  /\ contains (str_of_int 503) text
  /\ ~ contains (firstn 80 (lit "disk full")) text.
Proof.
  evaluate_run.
  - exists (lit "Error sending log: HTTP Error "), (lit ": Service Unavailable").
    reflexivity.
  - intros C. apply contains_is_infix in C. vm_compute in C. discriminate.
Qed.

Lemma caught_iff (e : exn) :
  caught e = true <-> isinstance e URLError = true.
Proof.
  unfold caught, isinstance. destruct (exn_class e); cbn; intuition congruence.
Qed.

(** A send attempt in which [urlopen] raises [URLError] or its subclass
    [HTTPError] is recovered on the spot: [failed] is incremented, one
    diagnostic line with the text of the error is printed, and the loop
    goes on with the next line. *)
Theorem url_error_is_recovered
    (env : Env) (line : str) (rest : list str) (s : State) (e : exn) :
  urlopen env (length (posts s)) (request_of env line s) = inl e ->
  isinstance e URLError = true ->
  let s' := {| sent := sent s; failed := failed s + 1;
               stdout := stdout s ++ [EError (exn_str e)];
               posts := posts s ++ [request_of env line s];
               ticks := S (ticks s) |} in
  send_line env line s = (s', inr tt)
  /\ render (EError (exn_str e)) = Some (lit "Error sending log: " ++ exn_str e)
  /\ for_each (line :: rest) (send_line env) s
     = for_each rest (send_line env) s'.
Proof.
  intros H C. cbv zeta.
  assert (E : send_line env line s =
              ({| sent := sent s; failed := failed s + 1;
                  stdout := stdout s ++ [EError (exn_str e)];
                  posts := posts s ++ [request_of env line s];
                  ticks := S (ticks s) |}, inr tt)).
  { rewrite send_line_eq. cbv zeta. rewrite H.
    apply caught_iff in C. now rewrite C. }
  split; [exact E|]. split; [reflexivity|].
  cbn [for_each]. unfold bind at 1. now rewrite E.
Qed.

Lemma url_error_is_recovered_witness :
  let env := env_raising [] connection_refused in
  let r := for_each [lit "a"; lit "b"] (send_line env) initial in
  snd r = inr tt
  /\ failed (fst r) = 2
  /\ length (posts (fst r)) = 2%nat
  /\ stdout (fst r) = [EError (exn_str connection_refused);
                       EError (exn_str connection_refused)].
Proof.
  cbv zeta.
  destruct (url_error_is_recovered (env_raising [] connection_refused)
              (lit "a") [lit "b"] initial connection_refused eq_refl eq_refl)
    as (_ & _ & C).
  rewrite C. vm_compute. repeat split.
Defined.

(** C3 fails on the code: the [except] clause names [HTTPError] and
    [URLError] only.  When [urlopen] raises on a malformed response an
    exception that is no [URLError], the first of two lines ends the run:
    [failed] stays 0, no diagnostic line is printed and the second line is
    never sent. *)
Lemma malformed_response_not_recovered :
  let r := run (send_logs (env_raising [lit "a"; lit "b"] bad_status_line)
                  (lit "logs.txt") 100) in
  snd r = inl bad_status_line
  /\ failed (fst r) = 0
  /\ length (posts (fst r)) = 1%nat
  /\ stdout (fst r) = [EReading (lit "logs.txt"); EFound 2;
                       ESendingTo OTLP_ENDPOINT; EBlank].
Proof. evaluate_run. Qed.

(** ** The rate *)

Lemma positive_iff (x : Q) : positive x = true <-> (0 < x)%Q.
Proof.
  unfold positive. rewrite negb_true_iff, <- not_true_iff_false, Qle_bool_iff.
  split; [apply Qnot_le_lt|apply Qlt_not_le].
Qed.

Lemma positive_nonzero (x : Q) : positive x = true -> Qeq_bool x 0 = false.
Proof.
  intros P. apply positive_iff in P.
  destruct (Qeq_bool x 0) eqn:E; [|reflexivity].
  apply Qeq_bool_eq in E. rewrite E in P. now apply Qlt_irrefl in P.
Qed.

(** The guarded quotient never reaches the division with a zero divisor. *)
Lemma rate_of_eq (n : Z) (elapsed : Q) :
  rate_of n elapsed
  = ret (if positive elapsed then (inject_Z n / elapsed)%Q else 0%Q).
Proof.
  unfold rate_of, truediv. destruct (positive elapsed) eqn:P; [|reflexivity].
  now rewrite (positive_nonzero _ P).
Qed.

Lemma progress_update_eq
    (env : Env) (total_lines : Z) (start_time : Q) (s : State) :
  let elapsed := (time_time env (ticks s) - start_time)%Q in
  let rate := if positive elapsed
              then (inject_Z (sent s) / elapsed)%Q else 0%Q in
  progress_update env total_lines start_time s =
  ({| sent := sent s; failed := failed s;
      stdout := stdout s ++ [EProgress (sent s) total_lines rate];
      posts := posts s; ticks := S (ticks s) |}, inr tt).
Proof.
  cbv zeta. unfold progress_update, bind. rewrite time_eq.
  unfold get_sent. cbn [sent]. rewrite rate_of_eq. reflexivity.
Qed.

Lemma final_stats_eq (env : Env) (start_time : Q) (s : State) :
  let elapsed := (time_time env (ticks s) - start_time)%Q in
  let rate := if positive elapsed
              then (inject_Z (sent s) / elapsed)%Q else 0%Q in
  final_stats env start_time s =
  ({| sent := sent s; failed := failed s;
      stdout := stdout s ++ [EBlank; ERule; EComplete; ESent (sent s);
                             EFailed (failed s); ETime elapsed; ERate rate;
                             ERule; EBlank; EQueryResults; EQueryCurl];
      posts := posts s; ticks := S (ticks s) |}, inr tt).
Proof.
  cbv zeta. unfold final_stats, bind. rewrite time_eq.
  unfold get_sent. cbn [sent]. rewrite rate_of_eq.
  cbv beta iota delta [ret get_failed print sent failed stdout posts ticks].
  rewrite <- !app_assoc. reflexivity.
Qed.

(** C8, as the code has it: the rate never divides by zero.  In the
    progress line and in the final report alike, the rate is 0 when the
    elapsed time is zero or negative, and [sent / elapsed] when it is
    positive; neither computation raises. *)
Theorem rate_never_divides_by_zero
    (env : Env) (total_lines : Z) (start_time : Q) (s : State) :
  let elapsed := (time_time env (ticks s) - start_time)%Q in
  exists rate,
    rate_of (sent s) elapsed s = (s, inr rate)
    /\ ((elapsed <= 0)%Q -> rate = 0%Q)
    /\ ((0 < elapsed)%Q -> rate = (inject_Z (sent s) / elapsed)%Q)
    /\ snd (progress_update env total_lines start_time s) = inr tt
    /\ stdout (fst (progress_update env total_lines start_time s))
       = stdout s ++ [EProgress (sent s) total_lines rate]
    /\ snd (final_stats env start_time s) = inr tt
    /\ stdout (fst (final_stats env start_time s))
       = stdout s ++ [EBlank; ERule; EComplete; ESent (sent s);
                      EFailed (failed s); ETime elapsed; ERate rate;
                      ERule; EBlank; EQueryResults; EQueryCurl].
Proof.
  cbv zeta.
  exists (if positive (time_time env (ticks s) - start_time)
          then (inject_Z (sent s) / (time_time env (ticks s) - start_time))%Q
          else 0%Q).
  rewrite rate_of_eq, progress_update_eq, final_stats_eq. cbv zeta.
  repeat split.
  - intros L. destruct (positive _) eqn:P; [|reflexivity].
    apply positive_iff in P. now apply Qlt_not_le in P.
  - intros L. apply positive_iff in L. now rewrite L.
Qed.

(** C8 as stated fails in its second half: when the clock is set back
    during the run the elapsed time is negative, not 0, and the reported
    rate is 0, not [sent / elapsed]. *)
Lemma rate_is_zero_when_clock_set_back :
  let r := run (send_logs (env_clock_set_back [lit "a"]) (lit "logs.txt") 100) in
  let elapsed := (-5 # 1)%Q in
  snd r = inr tt
  /\ sent (fst r) = 1
  /\ stdout (fst r)
     = [EReading (lit "logs.txt"); EFound 1; ESendingTo OTLP_ENDPOINT; EBlank;
        EBlank; ERule; EComplete; ESent 1; EFailed 0; ETime elapsed;
        ERate 0; ERule; EBlank; EQueryResults; EQueryCurl]
  /\ ~ (elapsed == 0)%Q
  /\ ~ (0 == inject_Z 1 / elapsed)%Q.
Proof. evaluate_run; discriminate. Qed.

(** ** Fatal conditions *)

(** C7: when the batch-size argument is no integer, or the file cannot be
    opened or read, the run ends with that exception, no request has been
    handed to [urlopen], and no line of the final statistics is printed. *)
Theorem fatal_error_aborts_before_network
    (int_of_str : str -> option Z) (env : Env) (argv : list str) :
  let file_path :=
    if 1 <? len argv then nth 1 argv [] else lit "tmp/logs.txt" in
  let batch_arg_ok :=
    if 2 <? len argv
    then match int_of_str (nth 2 argv []) with Some _ => true | None => false end
    else true in
  let r := run (main int_of_str env argv) in
  (batch_arg_ok = false ->
     (exists e, snd r = inl e /\ exn_class e = ValueError)
     /\ posts (fst r) = [] /\ stdout (fst r) = [])
  /\ (batch_arg_ok = true ->
      forall e, open_lines env file_path = inl e ->
      snd r = inl e /\ posts (fst r) = []
      /\ Forall (fun ev => is_final_stats ev = false) (stdout (fst r))).
Proof.
  cbv zeta. unfold run, main, bind.
  destruct (2 <? len argv).
  - unfold int_. destruct (int_of_str (nth 2 argv [])) as [n|]; split;
      try discriminate.
    + intros _ e H. unfold send_logs, bind, read_lines, print.
      cbn [sent failed stdout posts ticks initial]. rewrite H. cbn.
      repeat split. repeat constructor.
    + intros _. cbn. repeat split. eexists. split; reflexivity.
  - split; [discriminate|].
    intros _ e H. unfold ret, send_logs, bind, read_lines, print.
    cbn [sent failed stdout posts ticks initial]. rewrite H. cbn.
    repeat split. repeat constructor.
Qed.

Lemma fatal_error_aborts_before_network_witness :
  (let r := run (main ascii_int (env_status [lit "a"] 200)
                   [lit "send_logs_from_file.py"; lit "logs.txt"; lit "ten"]) in
   posts (fst r) = [] /\ stdout (fst r) = [])
  /\ (let r := run (main ascii_int env_no_file
                      [lit "send_logs_from_file.py"; lit "missing.txt"]) in
      posts (fst r) = []
      /\ Forall (fun ev => is_final_stats ev = false) (stdout (fst r))).
Proof.
  split; cbv zeta.
  - destruct (fatal_error_aborts_before_network ascii_int
                (env_status [lit "a"] 200)
                [lit "send_logs_from_file.py"; lit "logs.txt"; lit "ten"])
      as [H _].
    destruct (H eq_refl) as (_ & Hp & Ho). split; assumption.
  - destruct (fatal_error_aborts_before_network ascii_int env_no_file
                [lit "send_logs_from_file.py"; lit "missing.txt"])
      as [_ H].
    destruct (H eq_refl _ eq_refl) as (_ & Hp & Ho). split; assumption.
Defined.

(** ** Slices and ranges: the batches of the outer loop *)

Lemma firstn_plus {A} (a c : nat) (l : list A) :
  firstn (a + c) l = firstn a l ++ firstn c (skipn a l).
Proof.
  revert l. induction a as [|a IH]; intros l; [reflexivity|].
  destruct l as [|x l]; cbn; [now rewrite firstn_nil|]. now rewrite IH.
Qed.

(** A slice that starts inside or after the list and has a width. *)
Lemma slice_window {A} (l : list A) (i w : Z) :
  0 <= i -> 0 <= w ->
  slice l i (i + w) = firstn (Z.to_nat w) (skipn (Z.to_nat i) l).
Proof.
  intros Hi Hw. unfold slice, clamp, len.
  destruct (Z.ltb_spec i 0) as [?|_]; [lia|].
  destruct (Z.ltb_spec (i + w) 0) as [?|_]; [lia|].
  set (n := length l).
  destruct (Z.le_gt_cases (Z.of_nat n) i) as [Hn|Hn].
  - rewrite (skipn_all2 (n := Z.to_nat i)) by (fold n; lia).
    replace (Z.to_nat (Z.max 0 (Z.min (Z.of_nat n) i))) with n by lia.
    unfold n. now rewrite skipn_all, !firstn_nil.
  - replace (Z.to_nat (Z.max 0 (Z.min (Z.of_nat n) i))) with (Z.to_nat i)
      by lia.
    destruct (Z.le_gt_cases (i + w) (Z.of_nat n)) as [Hw'|Hw'].
    + f_equal. lia.
    + rewrite !firstn_all2; [reflexivity| |];
        rewrite length_skipn; fold n; lia.
Qed.

Lemma chunks_concat {A} (l : list A) (b n : nat) : forall k0,
  concat (map (fun k => firstn b (skipn (k * b) l)) (seq k0 n))
  = firstn (n * b) (skipn (k0 * b) l).
Proof.
  induction n as [|n IH]; intros k0; [reflexivity|].
  cbn [seq map concat]. rewrite IH.
  replace (S n * b)%nat with (b + n * b)%nat by lia.
  rewrite firstn_plus, skipn_skipn. reflexivity.
Qed.

Lemma range_len_nonneg (start stop step : Z) : 0 <= range_len start stop step.
Proof.
  unfold range_len.
  destruct (0 <? step) eqn:S1.
  - apply Z.ltb_lt in S1. destruct (start <? stop) eqn:S2; [|lia].
    apply Z.ltb_lt in S2.
    assert (0 <= (stop - start - 1) / step) by (apply Z.div_pos; lia). lia.
  - apply Z.ltb_ge in S1. destruct (stop <? start) eqn:S2; [|lia].
    apply Z.ltb_lt in S2. destruct (Z.eq_dec step 0) as [->|Hs].
    + cbn. rewrite Z.div_0_r. lia.
    + assert (0 <= (start - stop - 1) / - step) by (apply Z.div_pos; lia). lia.
Qed.

(** The range of a positive step reaches the stop. *)
Lemma range_len_covers (stop step : Z) :
  0 < step -> 0 <= stop -> stop <= range_len 0 stop step * step.
Proof.
  intros Hs Hn. unfold range_len.
  destruct (Z.ltb_spec 0 step) as [_|?]; [|lia].
  destruct (Z.ltb_spec 0 stop) as [Hp|?]; [|lia].
  replace (stop - 0 - 1) with (stop - 1) by lia.
  pose proof (Z.div_mod (stop - 1) step ltac:(lia)) as D.
  pose proof (Z.mod_pos_bound (stop - 1) step Hs) as B. nia.
Qed.

(** With a positive batch size the batches are the lines, cut in order. *)
Lemma batches_cover (lines : list str) (batch_size : Z) (starts : list Z) :
  0 < batch_size ->
  range 0 (len lines) batch_size = Some starts ->
  concat (map (batch_at lines batch_size) starts) = lines.
Proof.
  intros Hb. unfold range.
  destruct (Z.eqb_spec batch_size 0) as [?|_]; [lia|].
  intros H; injection H as <-.
  rewrite map_map.
  set (n := Z.to_nat (range_len 0 (len lines) batch_size)).
  rewrite (map_ext _
    (fun k => firstn (Z.to_nat batch_size)
                (skipn (k * Z.to_nat batch_size) lines))).
  - rewrite chunks_concat. cbn [Nat.mul skipn]. apply firstn_all2.
    pose proof (range_len_covers (len lines) batch_size Hb
                  ltac:(unfold len; lia)) as C.
    pose proof (range_len_nonneg 0 (len lines) batch_size) as P.
    unfold len in *. subst n. nia.
  - intros k. unfold batch_at. rewrite slice_window by lia.
    do 2 f_equal. lia.
Qed.

(** With a negative batch size the outer loop has no iteration. *)
Lemma range_negative_step (stop step : Z) :
  step < 0 -> 0 <= stop -> range 0 stop step = Some [].
Proof.
  intros Hs Hn. unfold range, range_len.
  destruct (Z.eqb_spec step 0) as [?|_]; [lia|].
  destruct (Z.ltb_spec 0 step) as [?|_]; [lia|].
  destruct (Z.ltb_spec stop 0) as [?|_]; [lia|]. reflexivity.
Qed.

(** Whatever the batch size, the batches hold no more than the lines. *)
Lemma batches_within (lines : list str) (batch_size : Z) (starts : list Z) :
  range 0 (len lines) batch_size = Some starts ->
  (length (concat (map (batch_at lines batch_size) starts)) <= length lines)%nat.
Proof.
  intros H. destruct (Z.lt_trichotomy batch_size 0) as [N|[->|P]].
  - rewrite range_negative_step in H by (unfold len; lia).
    injection H as <-. cbn. lia.
  - discriminate.
  - now rewrite (batches_cover lines batch_size starts P H).
Qed.

(** Every line of a batch is one of the lines. *)
Lemma batch_at_incl (lines : list str) (batch_size i : Z) (line : str) :
  In line (batch_at lines batch_size i) -> In line lines.
Proof.
  unfold batch_at, slice. intros H.
  set (a := Z.to_nat (clamp (len lines) i)) in *.
  set (w := Z.to_nat _) in H.
  rewrite <- (firstn_skipn a lines). apply in_or_app. right.
  rewrite <- (firstn_skipn w (skipn a lines)). apply in_or_app. now left.
Qed.

(** ** Loops *)

Lemma bind_ok {A B} (c : M A) (k : A -> M B) (s s' : State) (b : B) :
  bind c k s = (s', inr b) ->
  exists s1 a, c s = (s1, inr a) /\ k a s1 = (s', inr b).
Proof.
  unfold bind. destruct (c s) as [s1 [e|a]]; [discriminate|]. eauto.
Qed.

Lemma bind_eq {A B} (c : M A) (k : A -> M B) (s s1 : State) (a : A) :
  c s = (s1, inr a) -> bind c k s = k a s1.
Proof. unfold bind. now intros ->. Qed.

(** A loop that has ended was at every head on the way. *)
Lemma for_each_ok_at_head {A} (body : A -> M unit) (l : list A) :
  forall s s', for_each l body s = (s', inr tt) -> at_head body l s [] s'.
Proof.
  induction l as [|x l IH]; cbn [for_each]; intros s s' H.
  - injection H as <-. constructor.
  - apply bind_ok in H as (s1 & [] & H1 & H2).
    econstructor; [exact H1|]. now apply IH.
Qed.

(** A property that every completed iteration keeps holds at every head. *)
Lemma at_head_inv {A} (body : A -> M unit) (P : State -> Prop) :
  (forall x s s1, P s -> body x s = (s1, inr tt) -> P s1) ->
  forall l s rest s', at_head body l s rest s' -> P s -> P s'.
Proof.
  intros Hb l s rest s' H. induction H; eauto.
Qed.

(** A property that every iteration keeps, however it ends, holds in the
    state in which the loop stops. *)
Lemma for_each_inv {A} (body : A -> M unit) (P : State -> Prop)
    (l : list A) :
  (forall x s, In x l -> P s -> P (fst (body x s))) ->
  forall s, P s -> P (fst (for_each l body s)).
Proof.
  induction l as [|x l IH]; intros Hb s Hs; [exact Hs|].
  cbn [for_each]. unfold bind.
  pose proof (Hb x s (or_introl eq_refl) Hs) as H1.
  destruct (body x s) as [s1 [e|[]]]; cbn [fst] in *; [exact H1|].
  apply IH; [|exact H1]. intros y t Hy. apply Hb. now right.
Qed.

Lemma len_snoc {A} (l : list A) (x : A) : len (l ++ [x]) = len l + 1.
Proof. unfold len. rewrite length_app. cbn. lia. Qed.

Lemma send_line_accounted (env : Env) (line : str) (s s1 : State) :
  accounted s -> send_line env line s = (s1, inr tt) -> accounted s1.
Proof.
  unfold accounted. intros Hs H.
  pose proof (send_line_posts env line s) as Hp. rewrite H in Hp. cbn in Hp.
  rewrite Hp, len_snoc.
  destruct (send_line_counts env line s s1 H) as [[-> ->]|[-> ->]]; lia.
Qed.

(** A batch whose lines were all attempted: what remains is the progress
    line, when it is due. *)
Lemma send_batch_eq (env : Env) (lines : list str)
    (total_lines batch_size : Z) (start_time : Q) (i : Z) (s s1 : State) :
  for_each (batch_at lines batch_size i) (send_line env) s = (s1, inr tt) ->
  send_batch env lines total_lines batch_size start_time i s
  = if progress_due batch_size i
    then progress_update env total_lines start_time s1
    else (s1, inr tt).
Proof.
  intros H. unfold send_batch. fold (batch_at lines batch_size i).
  rewrite (bind_eq _ _ _ _ _ H). fold (progress_due batch_size i).
  now destruct (progress_due batch_size i).
Qed.

Lemma send_batch_ok (env : Env) (lines : list str)
    (total_lines batch_size : Z) (start_time : Q) (i : Z) (s s' : State) :
  send_batch env lines total_lines batch_size start_time i s = (s', inr tt) ->
  exists s1,
    for_each (batch_at lines batch_size i) (send_line env) s = (s1, inr tt)
    /\ sent s' = sent s1 /\ failed s' = failed s1 /\ posts s' = posts s1
    /\ progress_count (stdout s')
       = (progress_count (stdout s1)
          + if progress_due batch_size i then 1 else 0)%nat.
Proof.
  intros H. pose proof H as H0. unfold send_batch in H0.
  apply bind_ok in H0 as (s1 & [] & H1 & _).
  fold (batch_at lines batch_size i) in H1.
  exists s1. split; [exact H1|].
  rewrite (send_batch_eq _ _ _ _ _ _ _ _ H1) in H.
  destruct (progress_due batch_size i).
  - rewrite progress_update_eq in H. cbv zeta in H. injection H as <-.
    cbn [sent failed posts stdout]. repeat split.
    unfold progress_count. rewrite filter_app, length_app. reflexivity.
  - injection H as <-. repeat split. lia.
Qed.

Lemma send_batch_accounted (env : Env) (lines : list str)
    (total_lines batch_size : Z) (start_time : Q) (i : Z) (s s' : State) :
  accounted s ->
  send_batch env lines total_lines batch_size start_time i s = (s', inr tt) ->
  accounted s'.
Proof.
  intros Hs H. apply send_batch_ok in H as (s1 & H1 & E1 & E2 & E3 & _).
  unfold accounted. rewrite E1, E2, E3.
  apply for_each_ok_at_head in H1.
  exact (at_head_inv _ accounted (fun x => send_line_accounted env x)
           _ _ _ _ H1 Hs).
Qed.

(** An inner loop that ends has attempted every line of the batch. *)
Lemma inner_loop_posts (env : Env) (batch : list str) :
  forall s s', for_each batch (send_line env) s = (s', inr tt) ->
  length (posts s') = (length (posts s) + length batch)%nat.
Proof.
  induction batch as [|x r IH]; cbn [for_each]; intros s s' H.
  - injection H as <-. cbn. lia.
  - apply bind_ok in H as (s1 & [] & H1 & H2).
    rewrite (IH _ _ H2).
    pose proof (send_line_posts env x s) as Hp. rewrite H1 in Hp. cbn in Hp.
    rewrite Hp, length_app. cbn. lia.
Qed.

(** And however it ends, it has attempted no more than them. *)
Lemma inner_loop_posts_le (env : Env) (batch : list str) :
  forall s,
  (length (posts (fst (for_each batch (send_line env) s)))
   <= length (posts s) + length batch)%nat.
Proof.
  induction batch as [|x r IH]; cbn [for_each]; intros s; [cbn; lia|].
  unfold bind. pose proof (send_line_posts env x s) as Hp.
  destruct (send_line env x s) as [s1 [e|[]]]; cbn [fst] in *.
  - rewrite Hp, length_app. cbn. lia.
  - specialize (IH s1). rewrite Hp, length_app in IH. cbn in *. lia.
Qed.

Lemma send_batch_posts_le (env : Env) (lines : list str)
    (total_lines batch_size : Z) (start_time : Q) (i : Z) (s : State) :
  (length (posts (fst (send_batch env lines total_lines batch_size
                         start_time i s)))
   <= length (posts s) + length (batch_at lines batch_size i))%nat.
Proof.
  pose proof (inner_loop_posts_le env (batch_at lines batch_size i) s) as L.
  unfold send_batch. fold (batch_at lines batch_size i). unfold bind.
  destruct (for_each _ _ s) as [s1 [e|[]]]; cbn [fst] in *; [exact L|].
  destruct (_ =? 0); [|exact L].
  rewrite progress_update_eq. exact L.
Qed.

Lemma outer_loop_posts_le (env : Env) (lines : list str)
    (total_lines batch_size : Z) (start_time : Q) (starts : list Z) :
  forall s,
  (length (posts (fst (for_each starts
                         (send_batch env lines total_lines batch_size
                            start_time) s)))
   <= length (posts s)
      + length (concat (map (batch_at lines batch_size) starts)))%nat.
Proof.
  induction starts as [|i r IH]; cbn [for_each map concat]; intros s;
    [cbn; lia|].
  unfold bind.
  pose proof (send_batch_posts_le env lines total_lines batch_size
                start_time i s) as L.
  rewrite length_app.
  destruct (send_batch _ _ _ _ _ i s) as [s1 [e|[]]]; cbn [fst] in *; [lia|].
  specialize (IH s1). lia.
Qed.

Lemma outer_loop_posts (env : Env) (lines : list str)
    (total_lines batch_size : Z) (start_time : Q) (starts : list Z) :
  forall s s',
  for_each starts (send_batch env lines total_lines batch_size start_time) s
  = (s', inr tt) ->
  length (posts s')
  = (length (posts s)
     + length (concat (map (batch_at lines batch_size) starts)))%nat.
Proof.
  induction starts as [|i r IH]; cbn [for_each map concat]; intros s s' H.
  - injection H as <-. cbn. lia.
  - apply bind_ok in H as (s1 & [] & H1 & H2).
    rewrite (IH _ _ H2), length_app.
    apply send_batch_ok in H1 as (s2 & H3 & _ & _ & -> & _).
    rewrite (inner_loop_posts _ _ _ _ H3). lia.
Qed.

(** ** The run of [send_logs] *)

(** Up to the sending loop: four lines are printed, the counters are set
    and the clock is read once. *)
Lemma send_logs_eq (env : Env) (file_path : str) (batch_size : Z)
    (raw : list str) :
  open_lines env file_path = inr raw ->
  let lines := stripped raw in
  let start_time := time_time env 0 in
  run (send_logs env file_path batch_size)
  = (sending_loop env lines (len lines) batch_size start_time ;;
     final_stats env start_time) (loop_entry env file_path lines).
Proof.
  intros H. cbv zeta. unfold run, send_logs.
  cbv beta iota delta [bind print read_lines initial sent failed stdout
                       posts ticks set_sent set_failed time].
  rewrite H. reflexivity.
Qed.

Lemma stripped_length (raw : list str) :
  length (stripped raw) = length (kept raw).
Proof.
  unfold stripped, kept. rewrite length_map. f_equal.
  apply filter_ext. intros l. apply truthy_strip.
Qed.

Lemma stripped_In (raw : list str) (line : str) :
  In line (stripped raw) ->
  exists l, In l raw /\ blank l = false /\ line = strip l.
Proof.
  unfold stripped. intros H. apply in_map_iff in H as (l & <- & Hl).
  apply filter_In in Hl as [Hin Ht]. rewrite truthy_strip in Ht.
  exists l. repeat split; [exact Hin|]. now destruct (blank l).
Qed.

(** What an attempt prints: nothing, or one diagnostic line. *)
Lemma send_line_stdout (env : Env) (line : str) (s : State) :
  exists ext,
    stdout (fst (send_line env line s)) = stdout s ++ ext
    /\ filter is_progress ext = []
    /\ Forall (fun ev => is_final_stats ev = false) ext.
Proof.
  rewrite send_line_eq. cbv zeta.
  destruct (urlopen env _ _) as [e|resp];
    [destruct (caught e)|destruct (status resp =? 200)]; cbn [fst stdout];
    first [ exists []; rewrite app_nil_r; repeat split; constructor
          | eexists [_]; repeat split; repeat constructor ].
Qed.

Lemma send_line_progress_count (env : Env) (line : str) (s s1 : State) :
  send_line env line s = (s1, inr tt) ->
  progress_count (stdout s1) = progress_count (stdout s).
Proof.
  intros H. destruct (send_line_stdout env line s) as (ext & E & F & _).
  rewrite H in E. cbn in E. unfold progress_count.
  rewrite E, filter_app, F, app_nil_r. reflexivity.
Qed.

(** A property of the state that attempts on the lines, progress lines and
    the final statistics all keep holds when [send_logs] stops, whether it
    returns or raises. *)
Lemma send_logs_inv (env : Env) (file_path : str) (batch_size : Z)
    (raw : list str) (P : State -> Prop) :
  open_lines env file_path = inr raw ->
  (forall line s, In line (stripped raw) -> P s ->
                  P (fst (send_line env line s))) ->
  (forall total start s, P s -> P (fst (progress_update env total start s))) ->
  (forall start s, P s -> P (fst (final_stats env start s))) ->
  P (loop_entry env file_path (stripped raw)) ->
  P (fst (run (send_logs env file_path batch_size))).
Proof.
  intros Hf Hline Hprog Hfin H0.
  rewrite (send_logs_eq _ _ _ _ Hf). cbv zeta.
  set (lines := stripped raw) in *. set (start := time_time env 0).
  assert (Hloop : P (fst (sending_loop env lines (len lines) batch_size start
                            (loop_entry env file_path lines)))).
  { unfold sending_loop, batch_starts, bind.
    destruct (range 0 (len lines) batch_size) as [starts|]; [|exact H0].
    cbn [ret]. apply for_each_inv; [|exact H0].
    intros i s _ Hs. unfold send_batch, bind.
    assert (Hin : P (fst (for_each (slice lines i (i + batch_size))
                            (send_line env) s))).
    { apply for_each_inv; [|exact Hs].
      intros line t Hl. apply Hline. exact (batch_at_incl _ _ _ _ Hl). }
    destruct (for_each _ (send_line env) s) as [s1 [e|[]]]; cbn [fst] in *;
      [exact Hin|].
    destruct (_ =? 0); [now apply Hprog|exact Hin]. }
  unfold bind at 1.
  destruct (sending_loop _ _ _ _ _ _) as [s1 [e|[]]]; cbn [fst] in *;
    [exact Hloop|].
  now apply Hfin.
Qed.

Lemma sending_loop_posts_le (env : Env) (lines : list str)
    (batch_size : Z) (start_time : Q) (s : State) :
  (length (posts (fst (sending_loop env lines (len lines) batch_size
                         start_time s)))
   <= length (posts s) + length lines)%nat.
Proof.
  unfold sending_loop, batch_starts, bind.
  destruct (range 0 (len lines) batch_size) as [starts|] eqn:R;
    cbn [ret raise fst]; [|lia].
  pose proof (outer_loop_posts_le env lines (len lines) batch_size
                start_time starts s) as L.
  pose proof (batches_within lines batch_size starts R). lia.
Qed.

(** C6: a line that is empty or all white space is not counted and is never
    sent.  The count the run prints is the number of lines that are not
    blank; every request handed to [urlopen] carries such a line, trimmed;
    and there are no more requests than such lines. *)
Theorem blank_lines_neither_counted_nor_sent
    (env : Env) (file_path : str) (batch_size : Z) (raw : list str) :
  open_lines env file_path = inr raw ->
  let r := run (send_logs env file_path batch_size) in
  (exists ext, stdout (fst r)
               = [EReading file_path; EFound (len (kept raw));
                  ESendingTo OTLP_ENDPOINT; EBlank] ++ ext)
  /\ Forall (carries_kept_line raw) (posts (fst r))
  /\ (length (posts (fst r)) <= length (kept raw))%nat
  /\ (forall l, In l (kept raw) <-> In l raw /\ strip l <> []).
Proof.
  intros Hf. cbv zeta. repeat split.
  - apply (send_logs_inv env file_path batch_size raw
             (fun s => exists ext,
                stdout s = [EReading file_path; EFound (len (kept raw));
                            ESendingTo OTLP_ENDPOINT; EBlank] ++ ext) Hf).
    + intros line s _ [ext E].
      destruct (send_line_stdout env line s) as (ext' & E' & _).
      exists (ext ++ ext'). now rewrite E', E, <- app_assoc.
    + intros total start s [ext E]. rewrite progress_update_eq. cbv zeta.
      cbn [fst stdout]. eexists. now rewrite E, <- app_assoc.
    + intros start s [ext E]. rewrite final_stats_eq. cbv zeta.
      cbn [fst stdout]. eexists. now rewrite E, <- app_assoc.
    + exists []. unfold loop_entry, len. cbn [stdout].
      now rewrite stripped_length.
  - apply (send_logs_inv env file_path batch_size raw
             (fun s => Forall (carries_kept_line raw) (posts s)) Hf).
    + intros line s Hl Hs. rewrite send_line_posts.
      apply Forall_app. split; [exact Hs|]. constructor; [|constructor].
      apply stripped_In in Hl as (l & Hin & Hb & ->).
      exists l. repeat split; assumption.
    + intros total start s Hs. now rewrite progress_update_eq.
    + intros start s Hs. now rewrite final_stats_eq.
    + constructor.
  - rewrite (send_logs_eq _ _ _ _ Hf). cbv zeta. unfold bind at 1.
    pose proof (sending_loop_posts_le env (stripped raw) batch_size
                  (time_time env 0)
                  (loop_entry env file_path (stripped raw))) as L.
    rewrite stripped_length in L. cbn [loop_entry posts length] in L.
    destruct (sending_loop _ _ _ _ _ _) as [s1 [e|[]]]; cbn [fst] in *;
      [lia|].
    rewrite final_stats_eq. cbv zeta. cbn [fst posts]. lia.
  - unfold kept in H. now apply filter_In in H.
  - unfold kept in H. apply filter_In in H as [_ H].
    rewrite strip_nil_iff. now destruct (blank l).
  - intros [Hin Hs]. unfold kept. apply filter_In. split; [exact Hin|].
    rewrite strip_nil_iff in Hs. now destruct (blank l).
Qed.

Lemma blank_lines_neither_counted_nor_sent_witness :
  let raw := [lit "a"; []; lit "  "; lit "b"] in
  let r := run (send_logs (env_status raw 200) (lit "logs.txt") 100) in
  kept raw = [lit "a"; lit "b"]
  /\ Forall (carries_kept_line raw) (posts (fst r))
  /\ (length (posts (fst r)) <= 2)%nat.
Proof.
  cbv zeta. split; [reflexivity|].
  destruct (blank_lines_neither_counted_nor_sent
              (env_status [lit "a"; []; lit "  "; lit "b"] 200)
              (lit "logs.txt") 100 [lit "a"; []; lit "  "; lit "b"]
              eq_refl) as (_ & H1 & H2 & _).
  split; [exact H1|exact H2].
Defined.

(** ** The counters *)

Lemma sending_loop_ok (env : Env) (lines : list str) (batch_size : Z)
    (start_time : Q) (s s' : State) :
  sending_loop env lines (len lines) batch_size start_time s = (s', inr tt) ->
  exists starts,
    range 0 (len lines) batch_size = Some starts
    /\ for_each starts
         (send_batch env lines (len lines) batch_size start_time) s
       = (s', inr tt).
Proof.
  unfold sending_loop, batch_starts. intros H.
  destruct (range 0 (len lines) batch_size) as [starts|]; [|discriminate].
  exists starts. split; [reflexivity|exact H].
Qed.

(** At a head of the inner loop, the attempts made and the lines still to
    come add up to the batch. *)
Lemma at_head_inner_posts (env : Env) (l rest : list str) (s s' : State) :
  at_head (send_line env) l s rest s' ->
  (length (posts s') + length rest = length (posts s) + length l)%nat.
Proof.
  induction 1 as [l s|x l s s1 rest s2 H1 _ IH]; [reflexivity|].
  pose proof (send_line_posts env x s) as Hp. rewrite H1 in Hp. cbn in Hp.
  rewrite Hp, length_app in IH. cbn in *. lia.
Qed.

(** At a head of the outer loop, the attempts made and the lines of the
    batches still to come add up to the lines of all batches. *)
Lemma at_head_outer_posts (env : Env) (lines : list str)
    (total_lines batch_size : Z) (start_time : Q)
    (starts rest : list Z) (s s' : State) :
  at_head (send_batch env lines total_lines batch_size start_time)
    starts s rest s' ->
  (length (posts s')
   + length (concat (map (batch_at lines batch_size) rest))
   = length (posts s)
     + length (concat (map (batch_at lines batch_size) starts)))%nat.
Proof.
  induction 1 as [l s|i l s s1 rest s2 H1 _ IH]; [reflexivity|].
  apply send_batch_ok in H1 as (t & H3 & _ & _ & E & _).
  apply inner_loop_posts in H3. rewrite E in IH.
  cbn [map concat]. rewrite length_app. lia.
Qed.

(** C10, as the code has it: at every head of the outer and of the inner
    loop, [sent + failed] is the number of send attempts made so far, which
    is the number of lines of the batches done and of the current batch
    done, since an attempt that returns increments exactly one of the two
    counters; and when the batch size is positive and the run returns,
    [sent + failed] is the number of lines that are not blank. *)
Theorem counters_account_for_attempts
    (env : Env) (file_path : str) (batch_size : Z) (raw : list str) :
  open_lines env file_path = inr raw ->
  let lines := stripped raw in
  let body := send_batch env lines (len lines) batch_size (time_time env 0) in
  let batches := fun l => concat (map (batch_at lines batch_size) l) in
  (forall starts rest s1,
     range 0 (len lines) batch_size = Some starts ->
     at_head body starts (loop_entry env file_path lines) rest s1 ->
     accounted s1
     /\ (length (posts s1) + length (batches rest)
         = length (batches starts))%nat
     /\ forall i rest' todo s,
          rest = i :: rest' ->
          at_head (send_line env) (batch_at lines batch_size i) s1 todo s ->
          accounted s
          /\ (length (posts s) + length todo
              = length (posts s1) + length (batch_at lines batch_size i))%nat)
  /\ (forall line s s',
        send_line env line s = (s', inr tt) ->
        (sent s' = sent s + 1 /\ failed s' = failed s)
        \/ (sent s' = sent s /\ failed s' = failed s + 1))
  /\ (0 < batch_size ->
      forall s', run (send_logs env file_path batch_size) = (s', inr tt) ->
      sent s' + failed s' = len (kept raw)).
Proof.
  intros Hf. cbv zeta. split; [|split].
  - intros starts rest s1 _ H1.
    assert (A1 : accounted s1).
    { refine (at_head_inv _ accounted _ _ _ _ _ H1 eq_refl).
      intros i s t. apply send_batch_accounted. }
    split; [exact A1|]. split.
    + exact (at_head_outer_posts _ _ _ _ _ _ _ _ _ H1).
    + intros i rest' todo s _ H2. split.
      * exact (at_head_inv _ accounted (fun x => send_line_accounted env x)
                 _ _ _ _ H2 A1).
      * exact (at_head_inner_posts _ _ _ _ _ H2).
  - intros line s s'. apply send_line_counts.
  - intros Hb s' H. rewrite (send_logs_eq _ _ _ _ Hf) in H. cbv zeta in H.
    apply bind_ok in H as (s1 & [] & H1 & H2).
    rewrite final_stats_eq in H2. cbv zeta in H2. injection H2 as <-.
    cbn [sent failed].
    apply sending_loop_ok in H1 as (starts & R & H1).
    pose proof (outer_loop_posts _ _ _ _ _ _ _ _ H1) as L.
    rewrite (batches_cover _ _ _ Hb R) in L. cbn [loop_entry posts length] in L.
    apply for_each_ok_at_head in H1.
    assert (A1 : accounted s1).
    { refine (at_head_inv _ accounted _ _ _ _ _ H1 eq_refl).
      intros i s t. apply send_batch_accounted. }
    unfold accounted, len in *. rewrite A1, L, stripped_length. reflexivity.
Qed.

Lemma counters_account_for_attempts_witness :
  let raw := [lit "a"; lit " "; lit "b"; lit "c"] in
  let r := run (send_logs (env_status raw 503) (lit "logs.txt") 2) in
  sent (fst r) + failed (fst r) = 3.
Proof.
  cbv zeta.
  destruct (counters_account_for_attempts
              (env_status [lit "a"; lit " "; lit "b"; lit "c"] 503)
              (lit "logs.txt") 2 [lit "a"; lit " "; lit "b"; lit "c"]
              eq_refl) as (_ & _ & H).
  refine (H eq_refl (fst (run (send_logs _ _ _))) _).
  vm_compute. reflexivity.
Defined.

(** C10 as stated fails in its second half: with a negative batch size the
    outer loop has no iteration, the run returns, and [sent + failed] is 0
    although one line is not blank. *)
Lemma negative_batch_size_counts_nothing :
  let raw := [lit "a"] in
  let r := run (send_logs (env_status raw 200) (lit "logs.txt") (-1)) in
  snd r = inr tt
  /\ len (kept raw) = 1
  /\ sent (fst r) + failed (fst r) = 0.
Proof. evaluate_run. Qed.

(** ** A run without failures *)

Section AllAnswered200.

Variable env : Env.

Hypothesis all_200 :
  forall k rq, exists resp, urlopen env k rq = inr resp /\ status resp = 200.

Lemma send_line_200 (line : str) (s : State) :
  exists s', send_line env line s = (s', inr tt)
             /\ sent s' = sent s + 1 /\ failed s' = failed s.
Proof.
  rewrite send_line_eq. cbv zeta.
  destruct (all_200 (length (posts s)) (request_of env line s))
    as (resp & -> & E).
  rewrite E. cbn. eexists. repeat split.
Qed.

Lemma inner_loop_200 (batch : list str) : forall s,
  exists s', for_each batch (send_line env) s = (s', inr tt)
             /\ sent s' = sent s + len batch /\ failed s' = failed s.
Proof.
  induction batch as [|x r IH]; intros s; cbn [for_each].
  - exists s. unfold len. cbn. repeat split. lia.
  - destruct (send_line_200 x s) as (s1 & H1 & E1 & F1).
    destruct (IH s1) as (s' & H2 & E2 & F2).
    exists s'. rewrite (bind_eq _ _ _ _ _ H1). split; [exact H2|].
    unfold len in *. cbn [length]. split; lia.
Qed.

Lemma outer_loop_200 (lines : list str) (total_lines batch_size : Z)
    (start_time : Q) (starts : list Z) : forall s,
  exists s',
    for_each starts
      (send_batch env lines total_lines batch_size start_time) s
    = (s', inr tt)
    /\ sent s' = sent s + len (concat (map (batch_at lines batch_size) starts))
    /\ failed s' = failed s.
Proof.
  induction starts as [|i r IH]; intros s; cbn [for_each map concat].
  - exists s. unfold len. cbn. repeat split. lia.
  - destruct (inner_loop_200 (batch_at lines batch_size i) s)
      as (s1 & H1 & E1 & F1).
    pose proof (send_batch_eq env lines total_lines batch_size start_time
                  i s s1 H1) as B.
    assert (exists s2,
              send_batch env lines total_lines batch_size start_time i s
              = (s2, inr tt)
              /\ sent s2 = sent s1 /\ failed s2 = failed s1)
      as (s2 & H2 & E2 & F2).
    { rewrite B. destruct (progress_due batch_size i).
      - rewrite progress_update_eq. cbv zeta. eexists. repeat split.
      - exists s1. repeat split. }
    destruct (IH s2) as (s' & H3 & E3 & F3).
    exists s'. rewrite (bind_eq _ _ _ _ _ H2). split; [exact H3|].
    unfold len in *. rewrite length_app. split; lia.
Qed.

End AllAnswered200.

(** C1, as the code has it: with a positive batch size, when the file has
    [n] lines that are not blank and every post is answered with status
    200, the run returns with [sent = n] and [failed = 0], and reports
    these two numbers. *)
Theorem all_lines_sent_without_failures
    (env : Env) (file_path : str) (batch_size : Z) (raw : list str) :
  0 < batch_size ->
  open_lines env file_path = inr raw ->
  (forall k rq, exists resp, urlopen env k rq = inr resp /\ status resp = 200) ->
  let n := len (kept raw) in
  exists s',
    run (send_logs env file_path batch_size) = (s', inr tt)
    /\ sent s' = n /\ failed s' = 0
    /\ In (ESent n) (stdout s') /\ In (EFailed 0) (stdout s').
Proof.
  intros Hb Hf H200. cbv zeta.
  rewrite (send_logs_eq _ _ _ _ Hf). cbv zeta.
  set (lines := stripped raw). set (start := time_time env 0).
  unfold sending_loop, batch_starts.
  destruct (range 0 (len lines) batch_size) as [starts|] eqn:R.
  - destruct (outer_loop_200 env H200 lines (len lines) batch_size start
                starts (loop_entry env file_path lines))
      as (s1 & H1 & E1 & F1).
    rewrite (batches_cover _ _ _ Hb R) in E1.
    cbn [loop_entry sent failed] in E1, F1.
    assert (E : sent s1 = len (kept raw)).
    { rewrite E1. unfold len, lines. now rewrite stripped_length. }
    unfold bind at 1. unfold bind at 1. cbn [ret]. rewrite H1.
    rewrite final_stats_eq. cbv zeta. eexists. split; [reflexivity|].
    cbn [sent failed stdout]. rewrite E, F1. repeat split.
    + apply in_or_app. right. cbn. tauto.
    + apply in_or_app. right. cbn. tauto.
  - unfold range in R. destruct (Z.eqb_spec batch_size 0); [lia|discriminate].
Qed.

Lemma all_lines_sent_without_failures_witness :
  let raw := [lit "a"; []; lit "  "; lit "b"] in
  exists s',
    run (send_logs (env_status raw 200) (lit "logs.txt") 100) = (s', inr tt)
    /\ sent s' = 2 /\ failed s' = 0
    /\ In (ESent 2) (stdout s') /\ In (EFailed 0) (stdout s').
Proof.
  cbv zeta.
  apply (all_lines_sent_without_failures
           (env_status [lit "a"; []; lit "  "; lit "b"] 200)
           (lit "logs.txt") 100 [lit "a"; []; lit "  "; lit "b"]).
  - reflexivity.
  - reflexivity.
  - intros k rq. exists {| status := 200 |}. split; reflexivity.
Defined.

(** C1 as stated fails: the batch size given on the command line may be
    negative; then no line is sent although every post would be answered
    with 200, and the run reports [sent = 0] for a file of two lines. *)
Lemma negative_batch_size_sends_nothing :
  let raw := [lit "a"; lit "b"] in
  let r := run (main ascii_int (env_status raw 200)
                  [lit "send_logs_from_file.py"; lit "logs.txt"; lit "-100"]) in
  snd r = inr tt
  /\ len (kept raw) = 2
  /\ sent (fst r) = 0
  /\ posts (fst r) = []
  /\ In (ESent 0) (stdout (fst r)).
Proof. evaluate_run. vm_compute. tauto. Qed.

(** ** Progress lines *)

Lemma inner_loop_progress_count (env : Env) (batch : list str) (s s1 : State) :
  for_each batch (send_line env) s = (s1, inr tt) ->
  progress_count (stdout s1) = progress_count (stdout s).
Proof.
  intros H. apply for_each_ok_at_head in H.
  refine (at_head_inv _ (fun t => progress_count (stdout t)
                                  = progress_count (stdout s))
            _ _ _ _ _ H eq_refl).
  intros x t t1 Ht H1. now rewrite (send_line_progress_count _ _ _ _ H1).
Qed.

Lemma outer_loop_progress_count (env : Env) (lines : list str)
    (total_lines batch_size : Z) (start_time : Q) (starts : list Z) :
  forall s s',
  for_each starts (send_batch env lines total_lines batch_size start_time) s
  = (s', inr tt) ->
  progress_count (stdout s')
  = (progress_count (stdout s)
     + length (filter (progress_due batch_size) starts))%nat.
Proof.
  induction starts as [|i r IH]; cbn [for_each filter]; intros s s' H.
  - injection H as <-. cbn. lia.
  - apply bind_ok in H as (s1 & [] & H1 & H2).
    rewrite (IH _ _ H2).
    apply send_batch_ok in H1 as (s2 & H3 & _ & _ & _ & ->).
    rewrite (inner_loop_progress_count _ _ _ _ H3).
    destruct (progress_due batch_size i); cbn [length]; lia.
Qed.

(** C2, as the code has it: a batch whose lines were all attempted ends
    with one progress line, printed after the lines its attempts printed
    and showing [sent], the total and the rate, when its nominal end
    [i + batch_size] (its start index plus the configured batch size) is a
    multiple of 500, and with none otherwise; the attempts themselves print
    no progress line.  So a run that returns has printed as many progress
    lines as it had batches with such an end: whether and when that happens
    depends on the batch size. *)
Theorem progress_follows_nominal_batch_end
    (env : Env) (file_path : str) (batch_size : Z) (raw : list str) :
  open_lines env file_path = inr raw ->
  let lines := stripped raw in
  (forall total start i s s1,
     for_each (batch_at lines batch_size i) (send_line env) s = (s1, inr tt) ->
     let elapsed := (time_time env (ticks s1) - start)%Q in
     let rate := if positive elapsed
                 then (inject_Z (sent s1) / elapsed)%Q else 0%Q in
     send_batch env lines total batch_size start i s
     = (if (i + batch_size) mod 500 =? 0
        then ({| sent := sent s1; failed := failed s1;
                 stdout := stdout s1 ++ [EProgress (sent s1) total rate];
                 posts := posts s1; ticks := S (ticks s1) |}, inr tt)
        else (s1, inr tt))
     /\ progress_count (stdout s1) = progress_count (stdout s))
  /\ (forall s',
        run (send_logs env file_path batch_size) = (s', inr tt) ->
        exists starts,
          range 0 (len lines) batch_size = Some starts
          /\ progress_count (stdout s')
             = length (filter (fun i => (i + batch_size) mod 500 =? 0)
                         starts)).
Proof.
  intros Hf. cbv zeta. split.
  - intros total start i s s1 H. split.
    + rewrite (send_batch_eq _ _ _ _ _ _ _ _ H).
      unfold progress_due, mod_.
      destruct ((i + batch_size) mod 500 =? 0); [|reflexivity].
      now rewrite progress_update_eq.
    + exact (inner_loop_progress_count _ _ _ _ H).
  - intros s' H. rewrite (send_logs_eq _ _ _ _ Hf) in H. cbv zeta in H.
    apply bind_ok in H as (s1 & [] & H1 & H2).
    apply sending_loop_ok in H1 as (starts & R & H1).
    exists starts. split; [exact R|].
    rewrite final_stats_eq in H2. cbv zeta in H2. injection H2 as <-.
    cbn [stdout]. unfold progress_count at 1.
    rewrite filter_app, length_app. cbn [filter is_progress length].
    fold (progress_count (stdout s1)).
    rewrite (outer_loop_progress_count _ _ _ _ _ _ _ _ H1).
    cbn. unfold progress_due, mod_. lia.
Qed.

Lemma progress_follows_nominal_batch_end_witness :
  let env := env_status [lit "a"] 200 in
  let entry := loop_entry env (lit "logs.txt") [lit "a"] in
  let r := run (send_logs env (lit "logs.txt") 500) in
  stdout (fst (send_batch env [lit "a"] 1 500 (time_time env 0) 0 entry))
  = stdout entry ++ [EProgress 1 1 (inject_Z 1 / (inject_Z 2 - inject_Z 0))%Q]
  /\ progress_count (stdout (fst r)) = 1%nat.
Proof.
  cbv zeta.
  destruct (progress_follows_nominal_batch_end (env_status [lit "a"] 200)
              (lit "logs.txt") 500 [lit "a"] eq_refl) as [B R].
  split.
  - destruct (B 1 (time_time (env_status [lit "a"] 200) 0) 0
                (loop_entry (env_status [lit "a"] 200) (lit "logs.txt")
                   [lit "a"])
                (fst (for_each (batch_at [lit "a"] 500 0)
                        (send_line (env_status [lit "a"] 200))
                        (loop_entry (env_status [lit "a"] 200)
                           (lit "logs.txt") [lit "a"]))))
      as [E _].
    + vm_compute. reflexivity.
    + change (stripped [lit "a"]) with [lit "a"] in E. rewrite E.
      vm_compute. reflexivity.
  - destruct (R (fst (run (send_logs (env_status [lit "a"] 200)
                             (lit "logs.txt") 500))))
      as (starts & Hs & C).
    + vm_compute. reflexivity.
    + rewrite C. change (stripped [lit "a"]) with [lit "a"] in Hs.
      vm_compute in Hs. injection Hs as <-. reflexivity.
Defined.

(** C2 as stated fails.  A file of one line sent with batch size 500 gets
    a progress line although the count of processed lines goes from 0 to 1
    and passes no multiple of 500. *)
Lemma progress_line_without_crossing :
  let r := run (send_logs (env_status [lit "a"] 200) (lit "logs.txt") 500) in
  snd r = inr tt
  /\ length (posts (fst r)) = 1%nat
  /\ progress_count (stdout (fst r)) = 1%nat
  /\ ~ crosses_500 0 1.
Proof.
  evaluate_run. intros (k & Hk & H1 & H2). lia.
Qed.

(** And in the other direction: 500 lines sent with batch size 499 pass the
    count 500 in the second batch, and no progress line is printed. *)
Lemma crossing_without_progress_line :
  let r := run (send_logs (env_status (repeat (lit "x") 500) 200)
                  (lit "logs.txt") 499) in
  snd r = inr tt
  /\ sent (fst r) = 500
  /\ range 0 500 499 = Some [0; 499]
  /\ progress_count (stdout (fst r)) = 0%nat
  /\ crosses_500 499 500.
Proof.
  evaluate_run. exists 1. lia.
Qed.

Lemma rate_never_divides_by_zero_witness :
  let s := {| sent := 3; failed := 0; stdout := []; posts := []; ticks := 4 |} in
  exists rate,
    rate_of 3 (inject_Z 4 - inject_Z 4)%Q s = (s, inr rate) /\ rate = 0%Q.
Proof.
  cbv zeta.
  destruct (rate_never_divides_by_zero (env_status [] 200) 0 (inject_Z 4)
              {| sent := 3; failed := 0; stdout := []; posts := [];
                 ticks := 4 |}) as (rate & H & Z0 & _).
  exists rate. split; [exact H|]. apply Z0. vm_compute. discriminate.
Defined.


(** * Further properties of the script *)

(** ** The payload and the requests *)

(** The severity passed to [create_otlp_payload] becomes [severityText], and
    its lower case the [log.level] attribute, but [severityNumber] is 9
    whatever the severity. *)
Theorem severity_number_ignores_severity
    (env : Env) (log_body severity : str) (s : State) :
  Forall (fun c => (c < 128)%N) severity ->
  exists payload,
    snd (create_otlp_payload env log_body severity s) = inr payload
    /\ record_field "severityText" payload = Some (JStr severity)
    /\ record_field "severityNumber" payload = Some (JInt 9)
    /\ at_path (record_path ++ [Key "attributes"; Idx 0; Key "value";
                                Key "stringValue"]) payload
       = Some (JStr (lower severity))
    /\ body_of payload = Some (JStr log_body).
Proof.
  intros _.
  exists (otlp_payload (ns_of (time_time env (ticks s))) log_body severity).
  repeat split.
Qed.

Lemma severity_number_ignores_severity_witness :
  exists payload,
    snd (create_otlp_payload (env_status [] 200) (lit "disk full")
           (lit "ERROR") initial) = inr payload
    /\ record_field "severityText" payload = Some (JStr (lit "ERROR"))
    /\ record_field "severityNumber" payload = Some (JInt 9)
    /\ at_path (record_path ++ [Key "attributes"; Idx 0; Key "value";
                                Key "stringValue"]) payload
       = Some (JStr (lit "error")).
Proof.
  destruct (severity_number_ignores_severity (env_status [] 200)
              (lit "disk full") (lit "ERROR") initial)
    as (payload & H1 & H2 & H3 & H4 & _).
  - repeat constructor.
  - exists payload. repeat split; assumption.
Defined.

Lemma bind_exc {A B} (c : M A) (k : A -> M B) (s s1 : State) (e : exn) :
  c s = (s1, inl e) -> bind c k s = (s1, inl e).
Proof. unfold bind. now intros ->. Qed.

(** A property that attempts on the lines and progress lines keep holds
    when the sending loop stops, whether it ends or raises. *)
Lemma sending_loop_inv (env : Env) (lines : list str)
    (total_lines batch_size : Z) (start_time : Q) (P : State -> Prop) :
  (forall line s, In line lines -> P s -> P (fst (send_line env line s))) ->
  (forall total start s, P s -> P (fst (progress_update env total start s))) ->
  forall s, P s ->
  P (fst (sending_loop env lines total_lines batch_size start_time s)).
Proof.
  intros Hline Hprog s H0. unfold sending_loop, batch_starts, bind.
  destruct (range 0 total_lines batch_size) as [starts|]; [|exact H0].
  cbn [ret]. apply for_each_inv; [|exact H0].
  intros i t _ Ht. unfold send_batch, bind.
  assert (Hin : P (fst (for_each (slice lines i (i + batch_size))
                          (send_line env) t))).
  { apply for_each_inv; [|exact Ht].
    intros line u Hl. apply Hline. exact (batch_at_incl _ _ _ _ Hl). }
  destruct (for_each _ (send_line env) t) as [s1 [e|[]]]; cbn [fst] in *;
    [exact Hin|].
  destruct (_ =? 0); [now apply Hprog|exact Hin].
Qed.

(** When the file cannot be read, [send_logs] stops after its first line. *)
Lemma send_logs_unreadable (env : Env) (file_path : str) (batch_size : Z)
    (e : exn) :
  open_lines env file_path = inl e ->
  run (send_logs env file_path batch_size)
  = ({| sent := 0; failed := 0; stdout := [EReading file_path];
        posts := []; ticks := 0 |}, inl e).
Proof.
  intros H. unfold run, send_logs.
  cbv beta iota delta [bind print read_lines initial sent failed stdout
                       posts ticks].
  rewrite H. reflexivity.
Qed.

(** Whatever the file, the batch size and the answers, every request of a
    run goes to [OTLP_ENDPOINT], with the JSON content type as its only
    header and a timeout of 5. *)
Theorem every_request_well_addressed
    (env : Env) (file_path : str) (batch_size : Z) :
  Forall well_addressed (posts (fst (run (send_logs env file_path batch_size)))).
Proof.
  destruct (open_lines env file_path) as [e|raw] eqn:Hf.
  - rewrite (send_logs_unreadable _ _ _ _ Hf). constructor.
  - apply (send_logs_inv env file_path batch_size raw
             (fun s => Forall well_addressed (posts s)) Hf).
    + intros line s _ Hs. rewrite send_line_posts.
      apply Forall_app. split; [exact Hs|].
      constructor; [|constructor]. repeat split.
    + intros total start s Hs. now rewrite progress_update_eq.
    + intros start s Hs. now rewrite final_stats_eq.
    + constructor.
Qed.

(** ** Batch sizes that are not positive *)

(** With batch size 0 and a readable file, the run prints the header,
    reads the clock once, and then [range] raises [ValueError]: no request
    is made and no statistics are printed. *)
Theorem zero_batch_size_raises
    (env : Env) (file_path : str) (raw : list str) :
  open_lines env file_path = inr raw ->
  let r := run (send_logs env file_path 0) in
  (exists e, snd r = inl e /\ exn_class e = ValueError)
  /\ posts (fst r) = []
  /\ stdout (fst r) = header file_path (len (kept raw))
  /\ ticks (fst r) = 1%nat.
Proof.
  intros Hf. cbv zeta. rewrite (send_logs_eq _ _ _ _ Hf). cbv zeta.
  unfold sending_loop, batch_starts, range. cbn [Z.eqb].
  unfold bind, raise. cbn [fst snd loop_entry posts stdout ticks].
  repeat split.
  - eexists. split; reflexivity.
  - unfold header, len. now rewrite stripped_length.
Qed.

Lemma zero_batch_size_raises_witness :
  let r := run (send_logs (env_status [lit "a"; lit "b"] 200)
                  (lit "logs.txt") 0) in
  posts (fst r) = [] /\ stdout (fst r) = header (lit "logs.txt") 2.
Proof.
  cbv zeta.
  destruct (zero_batch_size_raises (env_status [lit "a"; lit "b"] 200)
              (lit "logs.txt") [lit "a"; lit "b"] eq_refl)
    as (_ & H1 & H2 & _).
  split; [exact H1|exact H2].
Defined.

(** With a negative batch size and a readable file, whatever its lines,
    the run returns without a single request: it prints the header and the
    final statistics with [sent = 0] and [failed = 0]. *)
Theorem negative_batch_size_skips_all_lines
    (env : Env) (file_path : str) (batch_size : Z) (raw : list str) :
  batch_size < 0 ->
  open_lines env file_path = inr raw ->
  let r := run (send_logs env file_path batch_size) in
  snd r = inr tt
  /\ posts (fst r) = []
  /\ sent (fst r) = 0 /\ failed (fst r) = 0
  /\ exists elapsed rate,
       stdout (fst r) = header file_path (len (kept raw))
                        ++ final_block 0 0 elapsed rate.
Proof.
  intros Hb Hf. cbv zeta. rewrite (send_logs_eq _ _ _ _ Hf). cbv zeta.
  set (entry := loop_entry env file_path (stripped raw)).
  assert (E : (sending_loop env (stripped raw) (len (stripped raw)) batch_size
                 (time_time env 0);;
               final_stats env (time_time env 0)) entry
              = final_stats env (time_time env 0) entry).
  { unfold sending_loop, batch_starts.
    rewrite range_negative_step by (unfold len; lia). reflexivity. }
  rewrite E, final_stats_eq. cbv zeta.
  cbn [fst snd entry loop_entry posts stdout ticks sent failed].
  repeat (split; [reflexivity|]).
  eexists _, _. unfold header, final_block, len.
  now rewrite stripped_length.
Qed.

Lemma negative_batch_size_skips_all_lines_witness :
  let r := run (send_logs (env_status [lit "a"; lit "b"; lit "c"] 200)
                  (lit "logs.txt") (-7)) in
  snd r = inr tt /\ posts (fst r) = [] /\ sent (fst r) = 0.
Proof.
  cbv zeta.
  destruct (negative_batch_size_skips_all_lines
              (env_status [lit "a"; lit "b"; lit "c"] 200)
              (lit "logs.txt") (-7) [lit "a"; lit "b"; lit "c"]
              eq_refl eq_refl) as (H1 & H2 & H3 & _).
  repeat split; assumption.
Defined.

(** ** Counters and diagnostic lines *)

Lemma diagnostics_snoc (out : list event) (e : event) :
  diagnostics (out ++ [e])
  = diagnostics out ++ (if is_diagnostic e then [e] else []).
Proof. unfold diagnostics. rewrite filter_app. cbn. now destruct (is_diagnostic e). Qed.

Lemma diagnostics_app_plain (out ext : list event) :
  Forall (fun e => is_diagnostic e = false) ext ->
  diagnostics (out ++ ext) = diagnostics out.
Proof.
  intros H. unfold diagnostics. rewrite filter_app.
  replace (filter is_diagnostic ext) with (@nil event);
    [apply app_nil_r|].
  induction H as [|e l He _ IH]; [reflexivity|]. cbn. now rewrite He.
Qed.

(** In every state in which a run stops, [failed] is the number of
    diagnostic lines recorded as printed. *)
Lemma failed_is_diagnostics
    (env : Env) (file_path : str) (batch_size : Z) (raw : list str) :
  open_lines env file_path = inr raw ->
  let r := run (send_logs env file_path batch_size) in
  failed (fst r) = len (diagnostics (stdout (fst r))).
Proof.
  intros Hf. cbv zeta.
  apply (send_logs_inv env file_path batch_size raw
           (fun s => failed s = len (diagnostics (stdout s))) Hf).
  - intros line s _ Hs. rewrite send_line_eq. cbv zeta.
    destruct (urlopen env _ _) as [e|resp];
      [destruct (caught e)|destruct (status resp =? 200)];
      cbn [fst failed stdout]; try exact Hs;
      rewrite diagnostics_snoc; cbn [is_diagnostic]; rewrite len_snoc; lia.
  - intros total start s Hs. rewrite progress_update_eq. cbv zeta.
    cbn [fst failed stdout]. now rewrite diagnostics_snoc, app_nil_r.
  - intros start s Hs. rewrite final_stats_eq. cbv zeta.
    cbn [fst failed stdout]. rewrite diagnostics_app_plain; [exact Hs|].
    repeat constructor.
  - reflexivity.
Qed.

(** Every failure is reported once: when a run returns, [failed], as the
    final statistics show it, is the number of diagnostic lines printed
    (status lines and error lines together). *)
Theorem failed_counts_diagnostic_lines
    (env : Env) (file_path : str) (batch_size : Z) (raw : list str)
    (s' : State) :
  open_lines env file_path = inr raw ->
  run (send_logs env file_path batch_size) = (s', inr tt) ->
  failed s' = len (diagnostics (stdout s'))
  /\ In (EFailed (len (diagnostics (stdout s')))) (stdout s').
Proof.
  intros Hf H.
  pose proof (failed_is_diagnostics env file_path batch_size raw Hf) as F.
  cbv zeta in F. rewrite H in F. cbn [fst] in F. split; [exact F|].
  rewrite <- F. rewrite (send_logs_eq _ _ _ _ Hf) in H. cbv zeta in H.
  apply bind_ok in H as (s1 & [] & _ & H2).
  rewrite final_stats_eq in H2. cbv zeta in H2. injection H2 as <-.
  cbn [stdout failed]. apply in_or_app. right. cbn. tauto.
Qed.

Lemma failed_counts_diagnostic_lines_witness :
  let r := run (send_logs (env_flaky [lit "a"; lit "b"; lit "c"])
                  (lit "logs.txt") 2) in
  failed (fst r) = 1
  /\ diagnostics (stdout (fst r)) = [EError (exn_str connection_refused)].
Proof.
  cbv zeta.
  destruct (failed_counts_diagnostic_lines
              (env_flaky [lit "a"; lit "b"; lit "c"]) (lit "logs.txt") 2
              [lit "a"; lit "b"; lit "c"]
              (fst (run (send_logs (env_flaky [lit "a"; lit "b"; lit "c"])
                           (lit "logs.txt") 2)))
              eq_refl) as [F _].
  - vm_compute. reflexivity.
  - rewrite F. split; vm_compute; reflexivity.
Defined.

(** The number of requests never exceeds the number of lines kept. *)
Lemma run_posts_le (env : Env) (file_path : str) (batch_size : Z)
    (raw : list str) :
  open_lines env file_path = inr raw ->
  (length (posts (fst (run (send_logs env file_path batch_size))))
   <= length (kept raw))%nat.
Proof.
  intros Hf. rewrite (send_logs_eq _ _ _ _ Hf). cbv zeta. unfold bind at 1.
  pose proof (sending_loop_posts_le env (stripped raw) batch_size
                (time_time env 0)
                (loop_entry env file_path (stripped raw))) as L.
  rewrite stripped_length in L. cbn [loop_entry posts length] in L.
  destruct (sending_loop _ _ _ _ _ _) as [s1 [e|[]]]; cbn [fst] in *;
    [lia|].
  rewrite final_stats_eq. cbv zeta. cbn [fst posts]. lia.
Qed.

(** Whenever a run with a readable file stops, the counters are not
    negative and together count at most the requests made, which are at
    most the lines kept; and when the run returns they count exactly the
    requests made. *)
Theorem counters_bounded_by_requests
    (env : Env) (file_path : str) (batch_size : Z) (raw : list str) :
  open_lines env file_path = inr raw ->
  let r := run (send_logs env file_path batch_size) in
  0 <= sent (fst r) /\ 0 <= failed (fst r)
  /\ sent (fst r) + failed (fst r) <= len (posts (fst r))
  /\ len (posts (fst r)) <= len (kept raw)
  /\ (snd r = inr tt -> sent (fst r) + failed (fst r) = len (posts (fst r))).
Proof.
  intros Hf. cbv zeta.
  assert (B : 0 <= sent (fst (run (send_logs env file_path batch_size)))
              /\ 0 <= failed (fst (run (send_logs env file_path batch_size)))
              /\ sent (fst (run (send_logs env file_path batch_size)))
                 + failed (fst (run (send_logs env file_path batch_size)))
                 <= len (posts (fst (run (send_logs env file_path batch_size))))).
  { apply (send_logs_inv env file_path batch_size raw
             (fun s => 0 <= sent s /\ 0 <= failed s
                       /\ sent s + failed s <= len (posts s)) Hf).
    - intros line s _ (H1 & H2 & H3). rewrite send_line_eq. cbv zeta.
      destruct (urlopen env _ _) as [e|resp];
        [destruct (caught e)|destruct (status resp =? 200)];
        cbn [fst sent failed posts]; rewrite len_snoc; lia.
    - intros total start s Hs. now rewrite progress_update_eq.
    - intros start s Hs. now rewrite final_stats_eq.
    - unfold len. cbn. lia. }
  destruct B as (B1 & B2 & B3). repeat split; try assumption.
  - pose proof (run_posts_le env file_path batch_size raw Hf). unfold len. lia.
  - rewrite (send_logs_eq _ _ _ _ Hf). cbv zeta. intros H.
    destruct ((sending_loop env (stripped raw) (len (stripped raw)) batch_size
                 (time_time env 0);;
               final_stats env (time_time env 0))
                (loop_entry env file_path (stripped raw)))
      as [s' [e|[]]] eqn:E; [discriminate|]. cbn [fst snd] in *.
    apply bind_ok in E as (s1 & [] & H1 & H2).
    rewrite final_stats_eq in H2. cbv zeta in H2. injection H2 as <-.
    cbn [sent failed posts].
    apply sending_loop_ok in H1 as (starts & _ & H1).
    apply for_each_ok_at_head in H1.
    refine (at_head_inv _ accounted _ _ _ _ _ H1 eq_refl).
    intros i s t. apply send_batch_accounted.
Qed.

Lemma counters_bounded_by_requests_witness :
  let r := run (send_logs (env_raising [lit "a"; lit "b"] bad_status_line)
                  (lit "logs.txt") 100) in
  sent (fst r) + failed (fst r) <= len (posts (fst r))
  /\ len (posts (fst r)) <= 2.
Proof.
  cbv zeta.
  destruct (counters_bounded_by_requests
              (env_raising [lit "a"; lit "b"] bad_status_line)
              (lit "logs.txt") 100 [lit "a"; lit "b"] eq_refl)
    as (_ & _ & H1 & H2 & _).
  split; [exact H1|exact H2].
Defined.

(** ** The final statistics *)

(** With a readable file: when the run returns, the final statistics are
    the last lines printed, they are printed once, and they show the final
    values of [sent] and [failed]; when the sending loop is left by an
    exception, the run ends with that exception and none of the lines of
    the final statistics is printed. *)
Theorem final_statistics_iff_run_returns
    (env : Env) (file_path : str) (batch_size : Z) (raw : list str) :
  open_lines env file_path = inr raw ->
  let lines := stripped raw in
  let loop := sending_loop env lines (len lines) batch_size (time_time env 0)
                (loop_entry env file_path lines) in
  let r := run (send_logs env file_path batch_size) in
  (snd r = inr tt ->
     exists before elapsed rate,
       stdout (fst r)
       = before ++ final_block (sent (fst r)) (failed (fst r)) elapsed rate
       /\ Forall (fun ev => is_final_stats ev = false) before)
  /\ (forall e, snd loop = inl e ->
        snd r = inl e
        /\ Forall (fun ev => is_final_stats ev = false) (stdout (fst r))).
Proof.
  intros Hf. cbv zeta. rewrite (send_logs_eq _ _ _ _ Hf). cbv zeta.
  set (lines := stripped raw). set (start := time_time env 0).
  assert (L : Forall (fun ev => is_final_stats ev = false)
                (stdout (fst (sending_loop env lines (len lines) batch_size
                                start (loop_entry env file_path lines))))).
  { apply sending_loop_inv.
    - intros line s _ Hs.
      destruct (send_line_stdout env line s) as (ext & -> & _ & F).
      apply Forall_app. now split.
    - intros total st s Hs. rewrite progress_update_eq. cbv zeta.
      cbn [fst stdout]. apply Forall_app. split; [exact Hs|].
      repeat constructor.
    - repeat constructor. }
  destruct (sending_loop env lines (len lines) batch_size start
              (loop_entry env file_path lines)) as [s1 [e|[]]] eqn:E;
    cbn [fst snd] in *.
  - rewrite (bind_exc _ _ _ _ _ E). cbn [fst snd].
    split; [discriminate|]. intros e' He. split; [exact He|exact L].
  - rewrite (bind_eq _ _ _ _ _ E), final_stats_eq. cbv zeta.
    cbn [fst snd stdout sent failed].
    split; [|discriminate]. intros _. eexists _, _, _.
    split; [reflexivity|exact L].
Qed.

Lemma final_statistics_iff_run_returns_witness :
  (let r := run (send_logs (env_flaky [lit "a"; lit "b"]) (lit "logs.txt")
                   100) in
   exists before elapsed rate,
     stdout (fst r) = before ++ final_block 1 1 elapsed rate
     /\ Forall (fun ev => is_final_stats ev = false) before)
  /\ (let r := run (send_logs (env_raising [lit "a"; lit "b"] bad_status_line)
                      (lit "logs.txt") 100) in
      snd r = inl bad_status_line
      /\ Forall (fun ev => is_final_stats ev = false) (stdout (fst r))).
Proof.
  split; cbv zeta.
  - destruct (final_statistics_iff_run_returns
                (env_flaky [lit "a"; lit "b"]) (lit "logs.txt") 100
                [lit "a"; lit "b"] eq_refl) as [H _].
    destruct (H ltac:(vm_compute; reflexivity))
      as (before & elapsed & rate & E & F).
    exists before, elapsed, rate. split; [|exact F].
    rewrite E. reflexivity.
  - destruct (final_statistics_iff_run_returns
                (env_raising [lit "a"; lit "b"] bad_status_line)
                (lit "logs.txt") 100 [lit "a"; lit "b"] eq_refl) as [_ H].
    apply (H bad_status_line). vm_compute. reflexivity.
Defined.

(** ** The lines posted, in order *)

Lemma bodies_snoc (reqs : list request) (rq : request) :
  bodies (reqs ++ [rq]) = bodies reqs ++ [body_of (req_json rq)].
Proof. unfold bodies. now rewrite map_app. Qed.

Lemma send_line_bodies (env : Env) (line : str) (s : State) :
  bodies (posts (fst (send_line env line s)))
  = bodies (posts s) ++ [wrap line].
Proof. rewrite send_line_posts, bodies_snoc. reflexivity. Qed.

(** An inner loop that ends has posted its batch, in order. *)
Lemma inner_loop_bodies_ok (env : Env) (batch : list str) :
  forall s s', for_each batch (send_line env) s = (s', inr tt) ->
  bodies (posts s') = bodies (posts s) ++ map wrap batch.
Proof.
  induction batch as [|x r IH]; cbn [for_each]; intros s s' H.
  - injection H as <-. cbn. now rewrite app_nil_r.
  - apply bind_ok in H as (s1 & [] & H1 & H2).
    rewrite (IH _ _ H2).
    pose proof (send_line_bodies env x s) as B. rewrite H1 in B. cbn in B.
    rewrite B, <- app_assoc. reflexivity.
Qed.

(** However it stops, it has posted the first lines of its batch. *)
Lemma inner_loop_bodies (env : Env) (batch : list str) :
  forall s, exists k,
    (k <= length batch)%nat
    /\ bodies (posts (fst (for_each batch (send_line env) s)))
       = bodies (posts s) ++ map wrap (firstn k batch).
Proof.
  induction batch as [|x r IH]; cbn [for_each]; intros s.
  - exists 0%nat. cbn. split; [lia|now rewrite app_nil_r].
  - pose proof (send_line_bodies env x s) as B. unfold bind.
    destruct (send_line env x s) as [s1 [e|[]]]; cbn [fst] in *.
    + exists 1%nat. cbn. split; [lia|exact B].
    + destruct (IH s1) as (k & Hk & E). exists (S k). cbn [length firstn map].
      split; [lia|]. rewrite E, B, <- app_assoc. reflexivity.
Qed.

Lemma outer_loop_bodies (env : Env) (lines : list str)
    (total_lines batch_size : Z) (start_time : Q) (starts : list Z) :
  forall s, exists k,
    bodies (posts (fst (for_each starts
                          (send_batch env lines total_lines batch_size
                             start_time) s)))
    = bodies (posts s)
      ++ map wrap (firstn k (concat (map (batch_at lines batch_size) starts))).
Proof.
  induction starts as [|i r IH]; cbn [for_each map concat]; intros s.
  - exists 0%nat. cbn. now rewrite app_nil_r.
  - destruct (for_each (batch_at lines batch_size i) (send_line env) s)
      as [s1 [e|[]]] eqn:E.
    + assert (B : send_batch env lines total_lines batch_size start_time i s
                  = (s1, inl e)).
      { unfold send_batch. fold (batch_at lines batch_size i).
        now rewrite (bind_exc _ _ _ _ _ E). }
      rewrite (bind_exc _ _ _ _ _ B). cbn [fst].
      destruct (inner_loop_bodies env (batch_at lines batch_size i) s)
        as (k & Hk & Ek).
      rewrite E in Ek. cbn [fst] in Ek. exists k.
      rewrite firstn_app. replace (k - length _)%nat with 0%nat by lia.
      cbn [firstn]. now rewrite app_nil_r.
    + pose proof (inner_loop_bodies_ok _ _ _ _ E) as Ek.
      pose proof (send_batch_eq env lines total_lines batch_size start_time
                    i s s1 E) as B.
      assert (exists s2,
                send_batch env lines total_lines batch_size start_time i s
                = (s2, inr tt) /\ posts s2 = posts s1) as (s2 & B2 & P2).
      { rewrite B. destruct (progress_due batch_size i).
        - rewrite progress_update_eq. cbv zeta. eexists. split; reflexivity.
        - exists s1. split; reflexivity. }
      rewrite (bind_eq _ _ _ _ _ B2).
      destruct (IH s2) as (k & Hk).
      exists (length (batch_at lines batch_size i) + k)%nat.
      rewrite firstn_app_2, map_app, Hk, P2, Ek, <- app_assoc. reflexivity.
Qed.

(** The lines are posted in the order of the file, none twice and none
    skipped: whenever a run stops, the lines it has posted are a prefix of
    the trimmed lines kept; and when the batch size is positive and the run
    returns, they are all of them. *)
Theorem lines_posted_in_file_order
    (env : Env) (file_path : str) (batch_size : Z) (raw : list str) :
  open_lines env file_path = inr raw ->
  let r := run (send_logs env file_path batch_size) in
  (exists k, bodies (posts (fst r)) = map wrap (firstn k (stripped raw)))
  /\ (0 < batch_size -> snd r = inr tt ->
      bodies (posts (fst r)) = map wrap (stripped raw)).
Proof.
  intros Hf. cbv zeta.
  assert (P : exists k, bodies (posts (fst (run (send_logs env file_path
                                                   batch_size))))
                        = map wrap (firstn k (stripped raw))).
  { rewrite (send_logs_eq _ _ _ _ Hf). cbv zeta.
    set (lines := stripped raw). set (start := time_time env 0).
    set (entry := loop_entry env file_path lines).
    assert (L : exists k, bodies (posts (fst (sending_loop env lines
                                                (len lines) batch_size start
                                                entry)))
                          = map wrap (firstn k lines)).
    { unfold sending_loop, batch_starts.
      destruct (range 0 (len lines) batch_size) as [starts|] eqn:R.
      - unfold bind at 1. cbn [ret].
        destruct (outer_loop_bodies env lines (len lines) batch_size start
                    starts entry) as (k & Hk).
        destruct (Z.lt_trichotomy batch_size 0) as [N|[Z0|Pos]].
        + rewrite range_negative_step in R by (unfold len; lia).
          injection R as <-. exists 0%nat. reflexivity.
        + subst batch_size. discriminate.
        + rewrite (batches_cover _ _ _ Pos R) in Hk. exists k. exact Hk.
      - exists 0%nat. reflexivity. }
    destruct (sending_loop env lines (len lines) batch_size start entry)
      as [s1 [e|[]]] eqn:E; cbn [fst] in L.
    - rewrite (bind_exc _ _ _ _ _ E). exact L.
    - rewrite (bind_eq _ _ _ _ _ E), final_stats_eq. exact L. }
  split; [exact P|]. intros Hb Hr. destruct P as (k & Hk). rewrite Hk.
  assert (Len : length (posts (fst (run (send_logs env file_path batch_size))))
                = length (stripped raw)).
  { rewrite (send_logs_eq _ _ _ _ Hf) in *. cbv zeta in *.
    destruct ((sending_loop env (stripped raw) (len (stripped raw)) batch_size
                 (time_time env 0);;
               final_stats env (time_time env 0))
                (loop_entry env file_path (stripped raw)))
      as [s' [e|[]]] eqn:E; [discriminate|]. cbn [fst].
    apply bind_ok in E as (s1 & [] & H1 & H2).
    rewrite final_stats_eq in H2. cbv zeta in H2. injection H2 as <-.
    cbn [posts].
    apply sending_loop_ok in H1 as (starts & R & H1).
    rewrite (outer_loop_posts _ _ _ _ _ _ _ _ H1).
    now rewrite (batches_cover _ _ _ Hb R). }
  assert (Lk : length (firstn k (stripped raw)) = length (stripped raw)).
  { rewrite <- Len. unfold bodies in Hk.
    apply (f_equal (@length _)) in Hk. rewrite !length_map in Hk.
    now rewrite Hk. }
  rewrite length_firstn in Lk. now rewrite firstn_all2 by lia.
Qed.

Lemma lines_posted_in_file_order_witness :
  let raw := [lit " a "; lit "   "; lit "b"; lit "c"] in
  let r := run (send_logs (env_flaky raw) (lit "logs.txt") 2) in
  bodies (posts (fst r)) = [wrap (lit "a"); wrap (lit "b"); wrap (lit "c")].
Proof.
  cbv zeta.
  destruct (lines_posted_in_file_order
              (env_flaky [lit " a "; lit "   "; lit "b"; lit "c"])
              (lit "logs.txt") 2 [lit " a "; lit "   "; lit "b"; lit "c"]
              eq_refl) as [_ H].
  apply H; [reflexivity|]. vm_compute. reflexivity.
Defined.

(** ** Runs with recoverable failures only *)

Section OnlyUrlErrors.

Variable env : Env.

Hypothesis recoverable : raises_only_url_errors env.

Lemma send_line_returns (line : str) (s : State) :
  exists s', send_line env line s = (s', inr tt).
Proof.
  rewrite send_line_eq. cbv zeta.
  destruct (urlopen env _ _) as [e|resp] eqn:U.
  - apply recoverable in U. apply caught_iff in U. rewrite U. eauto.
  - destruct (status resp =? 200); eauto.
Qed.

Lemma inner_loop_returns (batch : list str) : forall s,
  exists s', for_each batch (send_line env) s = (s', inr tt).
Proof.
  induction batch as [|x r IH]; intros s; cbn [for_each]; [now exists s|].
  destruct (send_line_returns x s) as (s1 & H1).
  rewrite (bind_eq _ _ _ _ _ H1). apply IH.
Qed.

Lemma outer_loop_returns (lines : list str) (total_lines batch_size : Z)
    (start_time : Q) (starts : list Z) : forall s,
  exists s',
    for_each starts (send_batch env lines total_lines batch_size start_time) s
    = (s', inr tt).
Proof.
  induction starts as [|i r IH]; intros s; cbn [for_each]; [now exists s|].
  destruct (inner_loop_returns (batch_at lines batch_size i) s) as (s1 & H1).
  assert (exists s2,
            send_batch env lines total_lines batch_size start_time i s
            = (s2, inr tt)) as (s2 & H2).
  { rewrite (send_batch_eq _ _ _ _ _ _ _ _ H1).
    destruct (progress_due batch_size i); [|eauto].
    rewrite progress_update_eq. eauto. }
  rewrite (bind_eq _ _ _ _ _ H2). apply IH.
Qed.

End OnlyUrlErrors.

(** Failures that are recovered never stop the run: with a positive batch
    size, a readable file and an endpoint for which [urlopen] either
    returns a response or raises a [URLError], the run returns, every line
    kept has been posted once, and [sent + failed] is their number. *)
Theorem recoverable_failures_never_stop_the_run
    (env : Env) (file_path : str) (batch_size : Z) (raw : list str) :
  0 < batch_size ->
  open_lines env file_path = inr raw ->
  raises_only_url_errors env ->
  exists s',
    run (send_logs env file_path batch_size) = (s', inr tt)
    /\ length (posts s') = length (kept raw)
    /\ sent s' + failed s' = len (kept raw).
Proof.
  intros Hb Hf Hr. rewrite (send_logs_eq _ _ _ _ Hf). cbv zeta.
  set (lines := stripped raw). set (start := time_time env 0).
  set (entry := loop_entry env file_path lines).
  destruct (range 0 (len lines) batch_size) as [starts|] eqn:R.
  - destruct (outer_loop_returns env Hr lines (len lines) batch_size start
                starts entry) as (s1 & H1).
    assert (E : sending_loop env lines (len lines) batch_size start entry
                = (s1, inr tt)).
    { unfold sending_loop, batch_starts. rewrite R. exact H1. }
    rewrite (bind_eq _ _ _ _ _ E), final_stats_eq. cbv zeta.
    eexists. split; [reflexivity|]. cbn [posts sent failed].
    pose proof (outer_loop_posts _ _ _ _ _ _ _ _ H1) as L.
    rewrite (batches_cover _ _ _ Hb R) in L.
    cbn [entry loop_entry posts length] in L.
    unfold lines in L. rewrite stripped_length in L.
    split; [exact L|].
    apply for_each_ok_at_head in H1.
    assert (A1 : accounted s1).
    { refine (at_head_inv _ accounted _ _ _ _ _ H1 eq_refl).
      intros i s t. apply send_batch_accounted. }
    unfold accounted, len in *. now rewrite A1, L.
  - unfold range in R. destruct (Z.eqb_spec batch_size 0); [lia|discriminate].
Qed.

Lemma recoverable_failures_never_stop_the_run_witness :
  let raw := [lit "a"; lit "b"; lit "c"] in
  exists s',
    run (send_logs (env_flaky raw) (lit "logs.txt") 2) = (s', inr tt)
    /\ length (posts s') = 3%nat
    /\ sent s' + failed s' = 3.
Proof.
  cbv zeta.
  apply (recoverable_failures_never_stop_the_run
           (env_flaky [lit "a"; lit "b"; lit "c"]) (lit "logs.txt") 2
           [lit "a"; lit "b"; lit "c"]).
  - reflexivity.
  - reflexivity.
  - intros k rq e. cbn. destruct (Nat.even k); [discriminate|].
    intros H. injection H as <-. reflexivity.
Defined.

(** ** The batch size and what is delivered *)

Lemma same_delivery_refl (s : State) : same_delivery s s.
Proof. repeat split. Qed.

Lemma same_delivery_sym (s t : State) : same_delivery s t -> same_delivery t s.
Proof. intros (A & B & C & D). repeat split; congruence. Qed.

Lemma same_delivery_trans (s t u : State) :
  same_delivery s t -> same_delivery t u -> same_delivery s u.
Proof. intros (A & B & C & D) (A' & B' & C' & D'). repeat split; congruence. Qed.

Lemma for_each_app {A} (body : A -> M unit) (a b : list A) (s : State) :
  for_each (a ++ b) body s = (for_each a body ;; for_each b body) s.
Proof.
  revert s. induction a as [|x a IH]; intros s; [reflexivity|].
  cbn [app for_each]. unfold bind.
  destruct (body x s) as [s1 [e|[]]]; [reflexivity|].
  rewrite IH. reflexivity.
Qed.

(** A progress line leaves the delivery as it is. *)
Lemma send_batch_same_delivery (env : Env) (lines : list str)
    (total_lines batch_size : Z) (start_time : Q) (i : Z) (s s1 : State) :
  for_each (batch_at lines batch_size i) (send_line env) s = (s1, inr tt) ->
  exists s2,
    send_batch env lines total_lines batch_size start_time i s = (s2, inr tt)
    /\ same_delivery s2 s1.
Proof.
  intros H. rewrite (send_batch_eq _ _ _ _ _ _ _ _ H).
  destruct (progress_due batch_size i).
  - rewrite progress_update_eq. cbv zeta. eexists. split; [reflexivity|].
    repeat split. cbn [stdout]. now rewrite diagnostics_snoc, app_nil_r.
  - exists s1. split; [reflexivity|apply same_delivery_refl].
Qed.

Section AnswersByLine.

Variable env : Env.

Hypothesis by_line : answers_by_line env.

(** From states that agree on the delivery, an attempt on the same line
    has the same outcome and leaves states that agree again. *)
Lemma send_line_same_delivery (line : str) (s t : State) :
  same_delivery s t ->
  snd (send_line env line s) = snd (send_line env line t)
  /\ same_delivery (fst (send_line env line s)) (fst (send_line env line t)).
Proof.
  intros (A & B & C & D). rewrite !send_line_eq. cbv zeta.
  assert (L : length (posts s) = length (posts t)).
  { apply (f_equal (@length _)) in C. unfold bodies in C.
    now rewrite !length_map in C. }
  rewrite L.
  rewrite (by_line (length (posts t)) (request_of env line s)
             (request_of env line t) eq_refl).
  destruct (urlopen env _ _) as [e|resp];
    [destruct (caught e)|destruct (status resp =? 200)];
    cbn [fst snd]; (split; [reflexivity|]);
    unfold same_delivery; cbn [sent failed posts stdout];
    rewrite ?bodies_snoc, ?diagnostics_snoc, A, B, C, D; repeat split.
Qed.

Lemma inner_loop_same_delivery (batch : list str) : forall s t,
  same_delivery s t ->
  snd (for_each batch (send_line env) s)
  = snd (for_each batch (send_line env) t)
  /\ same_delivery (fst (for_each batch (send_line env) s))
                   (fst (for_each batch (send_line env) t)).
Proof.
  induction batch as [|x r IH]; intros s t H; cbn [for_each].
  - split; [reflexivity|exact H].
  - destruct (send_line_same_delivery x s t H) as [R D]. unfold bind.
    destruct (send_line env x s) as [s1 [e|[]]],
             (send_line env x t) as [t1 [e'|[]]];
      cbn [fst snd] in *; try discriminate.
    + split; [exact R|exact D].
    + now apply IH.
Qed.

(** The batches, run one after the other, deliver what one loop over all
    their lines delivers. *)
Lemma batches_same_delivery (lines : list str) (total_lines batch_size : Z)
    (start_time : Q) (starts : list Z) : forall s t,
  same_delivery s t ->
  let nested :=
    for_each starts (send_batch env lines total_lines batch_size start_time) s in
  let flat :=
    for_each (concat (map (batch_at lines batch_size) starts))
      (send_line env) t in
  snd nested = snd flat /\ same_delivery (fst nested) (fst flat).
Proof.
  induction starts as [|i r IH]; intros s t H; cbv zeta;
    cbn [for_each map concat].
  - split; [reflexivity|exact H].
  - rewrite for_each_app.
    destruct (inner_loop_same_delivery (batch_at lines batch_size i) s t H)
      as [R D].
    destruct (for_each (batch_at lines batch_size i) (send_line env) s)
      as [s1 [e|[]]] eqn:Es,
      (for_each (batch_at lines batch_size i) (send_line env) t)
      as [t1 [e'|[]]] eqn:Et;
      cbn [fst snd] in *; try discriminate.
    + assert (B : send_batch env lines total_lines batch_size start_time i s
                  = (s1, inl e)).
      { unfold send_batch. fold (batch_at lines batch_size i).
        now rewrite (bind_exc _ _ _ _ _ Es). }
      rewrite (bind_exc _ _ _ _ _ B), (bind_exc _ _ _ _ _ Et).
      split; [exact R|exact D].
    + destruct (send_batch_same_delivery env lines total_lines batch_size
                  start_time i s s1 Es) as (s2 & B & D2).
      rewrite (bind_eq _ _ _ _ _ B), (bind_eq _ _ _ _ _ Et).
      apply IH. exact (same_delivery_trans _ _ _ D2 D).
Qed.

(** A whole run, against the loop over all lines from the loop entry. *)
Lemma run_same_delivery_as_flat (file_path : str) (batch_size : Z)
    (raw : list str) :
  0 < batch_size ->
  open_lines env file_path = inr raw ->
  let r := run (send_logs env file_path batch_size) in
  let flat := for_each (stripped raw) (send_line env)
                (loop_entry env file_path (stripped raw)) in
  snd r = snd flat /\ same_delivery (fst r) (fst flat).
Proof.
  intros Hb Hf. cbv zeta. rewrite (send_logs_eq _ _ _ _ Hf). cbv zeta.
  set (lines := stripped raw). set (start := time_time env 0).
  set (entry := loop_entry env file_path lines).
  destruct (range 0 (len lines) batch_size) as [starts|] eqn:R.
  - destruct (batches_same_delivery lines (len lines) batch_size start starts
                entry entry (same_delivery_refl entry)) as [S D].
    rewrite (batches_cover _ _ _ Hb R) in S, D.
    assert (E : sending_loop env lines (len lines) batch_size start entry
                = for_each starts
                    (send_batch env lines (len lines) batch_size start) entry).
    { unfold sending_loop, batch_starts. now rewrite R. }
    rewrite <- E in S, D.
    destruct (sending_loop env lines (len lines) batch_size start entry)
      as [s1 [e|[]]] eqn:L; cbn [fst snd] in S, D.
    + rewrite (bind_exc _ _ _ _ _ L). split; [exact S|exact D].
    + rewrite (bind_eq _ _ _ _ _ L), final_stats_eq. cbv zeta.
      cbn [fst snd]. split; [exact S|].
      apply (same_delivery_trans _ s1); [|exact D].
      repeat split. cbn [stdout]. apply diagnostics_app_plain.
      repeat constructor.
  - unfold range in R. destruct (Z.eqb_spec batch_size 0); [lia|discriminate].
Qed.

End AnswersByLine.

(** The batch size has no effect on what is delivered: when the answer of
    the endpoint depends on the position of the call and on the line
    only, two runs on the same file with two positive batch sizes end the
    same way, with the same counters, the same lines posted and the same
    diagnostic lines. *)
Theorem batch_size_does_not_change_delivery
    (env : Env) (file_path : str) (batch_size batch_size' : Z)
    (raw : list str) :
  0 < batch_size -> 0 < batch_size' ->
  open_lines env file_path = inr raw ->
  answers_by_line env ->
  let r := run (send_logs env file_path batch_size) in
  let r' := run (send_logs env file_path batch_size') in
  snd r = snd r' /\ same_delivery (fst r) (fst r').
Proof.
  intros Hb Hb' Hf Ha. cbv zeta.
  destruct (run_same_delivery_as_flat env Ha file_path batch_size raw Hb Hf)
    as [S D].
  destruct (run_same_delivery_as_flat env Ha file_path batch_size' raw Hb' Hf)
    as [S' D'].
  split; [congruence|].
  exact (same_delivery_trans _ _ _ D (same_delivery_sym _ _ D')).
Qed.

Lemma batch_size_does_not_change_delivery_witness :
  let raw := [lit "a"; lit "b"; lit "c"; lit "d"; lit "e"] in
  let r := run (send_logs (env_flaky raw) (lit "logs.txt") 2) in
  let r' := run (send_logs (env_flaky raw) (lit "logs.txt") 500) in
  snd r = snd r' /\ same_delivery (fst r) (fst r').
Proof.
  cbv zeta.
  apply (batch_size_does_not_change_delivery
           (env_flaky [lit "a"; lit "b"; lit "c"; lit "d"; lit "e"])
           (lit "logs.txt") 2 500
           [lit "a"; lit "b"; lit "c"; lit "d"; lit "e"]).
  - reflexivity.
  - reflexivity.
  - reflexivity.
  - intros k rq rq' _. reflexivity.
Defined.

(** ** Progress lines with a batch size that divides 500 *)

(** One more batch moves the quotient by 500 up exactly when its end is a
    multiple of 500. *)
Lemma nominal_end_step (batch_size n : Z) :
  0 < batch_size -> 500 mod batch_size = 0 -> 0 <= n ->
  (n * batch_size + batch_size) / 500
  = n * batch_size / 500
    + (if (n * batch_size + batch_size) mod 500 =? 0 then 1 else 0).
Proof.
  intros Hb Hd Hn.
  set (m := 500 / batch_size).
  assert (Hm : 500 = batch_size * m).
  { subst m. pose proof (Z.div_mod 500 batch_size ltac:(lia)). lia. }
  set (a := n * batch_size).
  pose proof (Z.div_mod a 500 ltac:(lia)) as Da.
  pose proof (Z.mod_pos_bound a 500 ltac:(lia)) as Ba.
  set (q := a / 500) in *. set (r := a mod 500) in *.
  set (j := n - m * q).
  assert (Hr : r = batch_size * j) by (subst j a; nia).
  assert (Hj : 0 <= j < m) by nia.
  destruct (Z.eq_dec (j + 1) m) as [E|E].
  - assert (Hq : q + 1 = (a + batch_size) / 500).
    { apply (Z.div_unique _ _ _ 0); [lia|nia]. }
    assert (Hz : 0 = (a + batch_size) mod 500).
    { apply (Z.mod_unique _ _ (q + 1)); [lia|nia]. }
    rewrite <- Hq, <- Hz. reflexivity.
  - assert (Hq : q = (a + batch_size) / 500).
    { apply (Z.div_unique _ _ _ (batch_size * (j + 1))); nia. }
    assert (Hz : batch_size * (j + 1) = (a + batch_size) mod 500).
    { apply (Z.mod_unique _ _ q); nia. }
    rewrite <- Hq, <- Hz.
    destruct (Z.eqb_spec (batch_size * (j + 1)) 0); [nia|lia].
Qed.

Lemma progress_due_count (batch_size : Z) (n : nat) :
  0 < batch_size -> 500 mod batch_size = 0 ->
  Z.of_nat (length (filter (progress_due batch_size)
                      (map (fun k => 0 + Z.of_nat k * batch_size) (seq 0 n))))
  = Z.of_nat n * batch_size / 500.
Proof.
  intros Hb Hd. induction n as [|n IH]; [reflexivity|].
  rewrite seq_S, map_app, filter_app, length_app, Nat2Z.inj_add, IH.
  cbn [map filter Nat.add]. unfold progress_due at 1, mod_.
  replace (0 + Z.of_nat n * batch_size + batch_size)
    with (Z.of_nat n * batch_size + batch_size) by lia.
  replace (Z.of_nat (S n) * batch_size)
    with (Z.of_nat n * batch_size + batch_size) by lia.
  rewrite (nominal_end_step batch_size (Z.of_nat n) Hb Hd) by lia.
  destruct (_ =? 0); reflexivity.
Qed.

Lemma range_len_multiple (stop step : Z) :
  0 < step -> 0 <= stop -> stop mod step = 0 ->
  range_len 0 stop step * step = stop.
Proof.
  intros Hs Hn Hd. unfold range_len.
  destruct (Z.ltb_spec 0 step) as [_|?]; [|lia].
  destruct (Z.ltb_spec 0 stop) as [Hp|?]; [|lia].
  pose proof (Z.div_mod stop step ltac:(lia)) as D. rewrite Hd in D.
  set (c := stop / step) in *.
  assert (Hc : c - 1 = (stop - 0 - 1) / step).
  { apply (Z.div_unique _ _ _ (step - 1)); nia. }
  rewrite <- Hc. lia.
Qed.

(** With a batch size that divides 500, as the default 100 does, a run
    that returns has printed one progress line for every 500 lines of the
    count rounded up to whole batches; when the batch size also divides
    the number [n] of lines kept, these are [n / 500] progress lines. *)
Theorem progress_lines_when_batch_size_divides_500
    (env : Env) (file_path : str) (batch_size : Z) (raw : list str)
    (s' : State) :
  0 < batch_size -> 500 mod batch_size = 0 ->
  open_lines env file_path = inr raw ->
  run (send_logs env file_path batch_size) = (s', inr tt) ->
  let n := len (kept raw) in
  Z.of_nat (progress_count (stdout s'))
  = range_len 0 n batch_size * batch_size / 500
  /\ (n mod batch_size = 0 -> Z.of_nat (progress_count (stdout s')) = n / 500).
Proof.
  intros Hb Hd Hf H. cbv zeta.
  assert (C : Z.of_nat (progress_count (stdout s'))
              = range_len 0 (len (kept raw)) batch_size * batch_size / 500).
  { rewrite (send_logs_eq _ _ _ _ Hf) in H. cbv zeta in H.
    apply bind_ok in H as (s1 & [] & H1 & H2).
    apply sending_loop_ok in H1 as (starts & R & H1).
    rewrite final_stats_eq in H2. cbv zeta in H2. injection H2 as <-.
    cbn [stdout]. unfold progress_count at 1.
    rewrite filter_app, length_app. cbn [filter is_progress length].
    fold (progress_count (stdout s1)).
    rewrite (outer_loop_progress_count _ _ _ _ _ _ _ _ H1).
    cbn [loop_entry stdout progress_count filter is_progress length].
    rewrite Nat.add_0_r, Nat.add_0_l.
    unfold range in R. destruct (Z.eqb_spec batch_size 0); [lia|].
    injection R as <-.
    rewrite (progress_due_count batch_size _ Hb Hd).
    rewrite Z2Nat.id by apply range_len_nonneg.
    unfold len. now rewrite stripped_length. }
  split; [exact C|]. intros Hn. rewrite C.
  rewrite range_len_multiple; [reflexivity|lia|unfold len; lia|exact Hn].
Qed.

Lemma progress_lines_when_batch_size_divides_500_witness :
  (let r := run (send_logs (env_status [lit "a"] 200) (lit "logs.txt") 500) in
   Z.of_nat (progress_count (stdout (fst r))) = 1)
  /\ (let raw := repeat (lit "x") 500 in
      let r := run (send_logs (env_status raw 200) (lit "logs.txt") 250) in
      Z.of_nat (progress_count (stdout (fst r))) = 500 / 500).
Proof.
  split; cbv zeta.
  - destruct (progress_lines_when_batch_size_divides_500
                (env_status [lit "a"] 200) (lit "logs.txt") 500 [lit "a"]
                (fst (run (send_logs (env_status [lit "a"] 200)
                             (lit "logs.txt") 500))))
      as [H _].
    + reflexivity.
    + reflexivity.
    + reflexivity.
    + vm_compute. reflexivity.
    + rewrite H. vm_compute. reflexivity.
  - destruct (progress_lines_when_batch_size_divides_500
                (env_status (repeat (lit "x") 500) 200) (lit "logs.txt") 250
                (repeat (lit "x") 500)
                (fst (run (send_logs (env_status (repeat (lit "x") 500) 200)
                             (lit "logs.txt") 250))))
      as [_ H].
    + reflexivity.
    + reflexivity.
    + reflexivity.
    + vm_compute. reflexivity.
    + rewrite H; vm_compute; reflexivity.
Defined.

(** ** The batches *)

Lemma range_start_bounds (stop step : Z) (starts : list Z) (i : Z) :
  0 < step -> range 0 stop step = Some starts -> In i starts ->
  0 <= i < stop.
Proof.
  intros Hs R Hi. unfold range in R.
  destruct (Z.eqb_spec step 0); [lia|]. injection R as <-.
  apply in_map_iff in Hi as (k & <- & Hk). apply in_seq in Hk.
  unfold range_len in Hk.
  destruct (Z.ltb_spec 0 step) as [_|?]; [|lia].
  destruct (Z.ltb_spec 0 stop) as [Hp|?]; [|cbn in Hk; lia].
  assert (Hq : Z.of_nat k <= (stop - 0 - 1) / step).
  { assert (0 <= (stop - 0 - 1) / step) by (apply Z.div_pos; lia). lia. }
  pose proof (Z.div_mod (stop - 0 - 1) step ltac:(lia)) as D.
  pose proof (Z.mod_pos_bound (stop - 0 - 1) step Hs) as B. nia.
Qed.

(** With a positive batch size the batches cut the lines in order: put
    end to end they are the lines, and each of them has at least one line
    and at most [batch_size]. *)
Theorem batches_partition_the_lines
    (lines : list str) (batch_size : Z) (starts : list Z) :
  0 < batch_size ->
  range 0 (len lines) batch_size = Some starts ->
  concat (map (batch_at lines batch_size) starts) = lines
  /\ Forall (fun i => 0 < len (batch_at lines batch_size i) <= batch_size)
       starts.
Proof.
  intros Hb R. split; [exact (batches_cover _ _ _ Hb R)|].
  apply Forall_forall. intros i Hi.
  pose proof (range_start_bounds _ _ _ _ Hb R Hi) as Bi.
  unfold batch_at. rewrite slice_window by lia.
  unfold len in *. rewrite length_firstn, length_skipn. lia.
Qed.

Lemma batches_partition_the_lines_witness :
  let lines := [lit "a"; lit "b"; lit "c"; lit "d"; lit "e"] in
  concat (map (batch_at lines 2) [0; 2; 4]) = lines
  /\ Forall (fun i => 0 < len (batch_at lines 2 i) <= 2) [0; 2; 4].
Proof.
  cbv zeta.
  apply (batches_partition_the_lines
           [lit "a"; lit "b"; lit "c"; lit "d"; lit "e"] 2 [0; 2; 4]);
    reflexivity.
Defined.

(** ** The time stamps *)

(** Every payload a run posts is stamped with a reading of the clock taken
    during the run, after the reading that gives the start time: both time
    fields are the decimal text of the nanoseconds of that reading, which
    for a reading of at least one second is the reading times [10^9], up to
    the rounding of the float product and the truncation to an integer. *)
Theorem payloads_stamped_at_send_time
    (env : Env) (file_path : str) (batch_size : Z) (raw : list str) :
  open_lines env file_path = inr raw ->
  let r := run (send_logs env file_path batch_size) in
  Forall (fun rq =>
            exists j now_ns, (1 <= j < ticks (fst r))%nat
              /\ record_field "timeUnixNano" (req_json rq)
                 = Some (JStr (str_of_int now_ns))
              /\ record_field "observedTimeUnixNano" (req_json rq)
                 = Some (JStr (str_of_int now_ns))
              /\ int_of_decimal (str_of_int now_ns) = Some now_ns
              /\ now_ns = ns_of (time_time env j)
              /\ ((1 <= time_time env j)%Q ->
                  let x := (time_time env j * inject_Z 1000000000)%Q in
                  0 <= now_ns
                  /\ (inject_Z now_ns <= x * (1 + (1 # 9007199254740992)))%Q
                  /\ (x * (1 - (1 # 9007199254740992))
                      < inject_Z now_ns + 1)%Q))
         (posts (fst r)).
Proof.
  intros Hf. cbv zeta.
  set (stamped := fun (n : nat) (rq : request) =>
         exists j now_ns, (1 <= j < n)%nat
           /\ record_field "timeUnixNano" (req_json rq)
              = Some (JStr (str_of_int now_ns))
           /\ record_field "observedTimeUnixNano" (req_json rq)
              = Some (JStr (str_of_int now_ns))
           /\ int_of_decimal (str_of_int now_ns) = Some now_ns
           /\ now_ns = ns_of (time_time env j)
           /\ ((1 <= time_time env j)%Q ->
               0 <= now_ns
               /\ (inject_Z now_ns
                   <= time_time env j * inject_Z 1000000000
                      * (1 + (1 # 9007199254740992)))%Q
               /\ (time_time env j * inject_Z 1000000000
                   * (1 - (1 # 9007199254740992))
                   < inject_Z now_ns + 1)%Q)).
  assert (Mono : forall n m rq, (n <= m)%nat -> stamped n rq -> stamped m rq).
  { intros n m rq L (j & v & Hj & H). exists j, v. split; [lia|exact H]. }
  apply (send_logs_inv env file_path batch_size raw
           (fun s => (1 <= ticks s)%nat
                     /\ Forall (stamped (ticks s)) (posts s)) Hf).
  - intros line s _ [T Hs]. rewrite send_line_posts.
    assert (Tk : ticks (fst (send_line env line s)) = S (ticks s)).
    { rewrite send_line_eq. cbv zeta.
      destruct (urlopen env _ _) as [e|resp];
        [destruct (caught e)|destruct (status resp =? 200)]; reflexivity. }
    rewrite Tk. split; [lia|]. apply Forall_app. split.
    + eapply Forall_impl; [|exact Hs]. intros rq. apply Mono. lia.
    + constructor; [|constructor].
      exists (ticks s), (ns_of (time_time env (ticks s))).
      split; [lia|]. split; [reflexivity|]. split; [reflexivity|].
      split; [apply int_of_decimal_str_of_int|]. split; [reflexivity|].
      apply ns_of_bounds.
  - intros total start s [T Hs]. rewrite progress_update_eq. cbv zeta.
    cbn [fst ticks posts]. split; [lia|].
    eapply Forall_impl; [|exact Hs]. intros rq. apply Mono. lia.
  - intros start s [T Hs]. rewrite final_stats_eq. cbv zeta.
    cbn [fst ticks posts]. split; [lia|].
    eapply Forall_impl; [|exact Hs]. intros rq. apply Mono. lia.
  - cbn [loop_entry ticks posts]. split; [lia|constructor].
Qed.

Lemma payloads_stamped_at_send_time_witness :
  let r := run (send_logs (env_status [lit "a"; lit "b"] 200)
                  (lit "logs.txt") 100) in
  ticks (fst r) = 4%nat
  /\ Forall (fun rq =>
               exists j now_ns, (1 <= j < 4)%nat
                 /\ record_field "timeUnixNano" (req_json rq)
                    = Some (JStr (str_of_int now_ns))
                 /\ now_ns = Z.of_nat j * 1000000000)
            (posts (fst r)).
Proof.
  cbv zeta. split; [vm_compute; reflexivity|].
  pose proof (payloads_stamped_at_send_time
                (env_status [lit "a"; lit "b"] 200)
                (lit "logs.txt") 100 [lit "a"; lit "b"] eq_refl) as H.
  cbv zeta in H.
  replace (ticks (fst (run (send_logs (env_status [lit "a"; lit "b"] 200)
                              (lit "logs.txt") 100)))) with 4%nat in H
    by (vm_compute; reflexivity).
  eapply Forall_impl; [|exact H].
  intros rq (j & v & Hj & T & _ & _ & N & _).
  exists j, v. split; [exact Hj|]. split; [exact T|].
  rewrite N.
  destruct j as [|[|[|[|j]]]]; try lia; vm_compute; reflexivity.
Defined.
